(** * Compound detection in DART-MS scans: a shallow embedding

    The two scripts of the repository are embedded as Rocq functions:

    - [plot_compounds_json.py]: [extract_scan_number],
      [extract_rt_from_scan], [ReferenceDataManager], [CompoundDetector]
      (the sweep-time peak locator and the pattern validator),
      [SpectrumAnalyzer] (the scan sweep), [_extract_single_spectrum], the
      priority split of [analyze_all_samples], the plot counts of
      [_generate_summary_report] and the rows of [_save_analysis_results];
    - [Plot_Compounds_Validation_Analysis.py]:
      [PeakDetector.find_true_peak_maximum] (the plot-time locator),
      [safe_rt_extraction], [SpectrumExtractor] and
      [PlotGenerator._prepare_plot_data].

    Numbers.  numpy [float64] values are modelled as exact rationals [Q];
    comparisons are the boolean ones of [QArith].  Rounding, [nan] and
    [inf] are outside this model: where the source divides by a value that
    may be zero the theorems assume that it is not.

    Exceptions.  A Python computation that may raise is a value of [py A]:
    [Ret a] or [Raise].  [None] is an [option] inside it.

    Library code.  [scipy.signal.find_peaks], [int] and [str.isdigit] are
    not code of the repository: they are parameters of the embedding, and
    the module [Instances] gives executable instances of them. *)

From Stdlib Require Import QArith Qabs Lia Lqa Bool Ascii String.
From stdpp Require Import gmap strings list fin_maps.

Local Open Scope Q_scope.

(** ** Python and numpy primitives *)

Module Py.

(** A computation that returns or raises. *)
Inductive py (A : Type) : Type :=
| Ret (a : A)
| Raise.
Arguments Ret {A} a.
Arguments Raise {A}.

#[global] Instance py_ret : MRet py := fun A a => Ret a.
#[global] Instance py_bind : MBind py := fun A B f m =>
  match m with
  | Ret a => f a
  | Raise => Raise
  end.

(** [try: c  except: d] *)
Definition try_except {A} (c : py A) (d : A) : A :=
  match c with
  | Ret a => a
  | Raise => d
  end.

(** [x < y] on floats. *)
Definition Qlt_bool (x y : Q) : bool := negb (Qle_bool y x).

(** [arr[k]] for an integer [k >= 0]: [IndexError] out of range. *)
Definition getitem {A} (arr : list A) (k : nat) : py A :=
  match arr !! k with
  | Some a => Ret a
  | None => Raise
  end.

(** [arr[ks]] for an integer array [ks]: [IndexError] when one index is
    out of range. *)
Fixpoint take {A} (arr : list A) (ks : list nat) : py (list A) :=
  match ks with
  | [] => Ret []
  | k :: ks' =>
      a ← getitem arr k;
      r ← take arr ks';
      mret (a :: r)
  end.

(** [arr[mask]] for a boolean array [mask]: [IndexError] unless the two
    lengths agree. *)
Fixpoint compress {A} (arr : list A) (mask : list bool) : py (list A) :=
  match arr, mask with
  | [], [] => Ret []
  | a :: arr', b :: mask' =>
      r ← compress arr' mask';
      mret (if b then a :: r else r)
  | _, _ => Raise
  end.

(** [np.any(mask)] *)
Definition any (mask : list bool) : bool := existsb id mask.

(** [np.argmax]: the first index of the greatest element; [ValueError]
    on an empty array. *)
Fixpoint argmax_from (best : Q) (besti k : nat) (l : list Q) : nat :=
  match l with
  | [] => besti
  | x :: l' =>
      if Qlt_bool best x then argmax_from x k (S k) l'
      else argmax_from best besti (S k) l'
  end.

Definition argmax (l : list Q) : py nat :=
  match l with
  | [] => Raise
  | x :: l' => Ret (argmax_from x 0%nat 1%nat l')
  end.

(** [np.max]: [ValueError] on an empty array. *)
Definition amax (l : list Q) : py Q :=
  match l with
  | [] => Raise
  | x :: l' => Ret (fold_left (fun m y => if Qlt_bool m y then y else m) l' x)
  end.

(** The builtin [max(l, key=key)]: the first element whose key is
    greatest; [ValueError] on an empty list. *)
Fixpoint max_from {A} (key : A -> Q) (best : A) (l : list A) : A :=
  match l with
  | [] => best
  | x :: l' =>
      if Qlt_bool (key best) (key x) then max_from key x l'
      else max_from key best l'
  end.

Definition max_key {A} (key : A -> Q) (l : list A) : py A :=
  match l with
  | [] => Raise
  | x :: l' => Ret (max_from key x l')
  end.

(** [sub in s] on strings. *)
Fixpoint contains (sub s : string) : bool :=
  String.prefix sub s ||
  match s with
  | EmptyString => false
  | String _ s' => contains sub s'
  end.

(** [s[n:]] *)
Fixpoint drop_chars (n : nat) (s : string) : string :=
  match n, s with
  | O, _ => s
  | S n', String _ s' => drop_chars n' s'
  | S _, EmptyString => EmptyString
  end.

(** [s.split(sep)[-1]]: what follows the last occurrence of [sep], the
    whole of [s] when there is none.  The occurrences of the separator
    used by the source, ['scan='], cannot overlap. *)
Fixpoint split_last (sep s : string) : string :=
  match s with
  | EmptyString => EmptyString
  | String _ s' =>
      if contains sep s' then split_last sep s'
      else if String.prefix sep s then drop_chars (String.length sep) s
      else s
  end.

End Py.
Import Py.

(** ** Scan identifiers and spectra ([plot_compounds_json.py], utility
    functions) *)

(** A spectrum identifier as [pymzml] hands it over: an [int], a [str] or
    something else. *)
Inductive scan_id : Type :=
| IdInt (n : Z)
| IdStr (s : string)
| IdOther.

(** The value of a retention-time attribute: a tuple or list of numbers, a
    number, or something else. *)
Inductive rt_value : Type :=
| RtSeq (l : list Q)
| RtNum (x : Q)
| RtOther.

(** What the sweep reads of a [pymzml] spectrum.  An attribute the object
    does not have ([hasattr] is false) is [None]. *)
Record spectrum : Type := {
  sp_ID : scan_id;
  sp_ms_level : Z;
  sp_scan_time : option rt_value;
  sp_scan_time_in_minutes : option rt_value;
  sp_mz : list Q;
  sp_i : list Q
}.

Section ScanNumber.

(** [int(s)] on a string, [None] for [ValueError], and [s.isdigit()]. *)
Variable py_int : string -> option Z.
Variable isdigit : string -> bool.

(** [extract_scan_number].  The [int] of the ['scan='] branch is guarded by
    [try/except: pass] and falls through to [return 0]; the one of the
    [isdigit] branch is not guarded. *)
Definition extract_scan_number (id : scan_id) : py Z :=
  match id with
  | IdInt n => Ret n
  | IdStr s =>
      if contains "scan=" s then
        match py_int (split_last "scan=" s) with
        | Some n => Ret n
        | None => Ret 0%Z
        end
      else if isdigit s then
        match py_int s with
        | Some n => Ret n
        | None => Raise
        end
      else Ret 0%Z
  | IdOther => Ret 0%Z
  end.

(** [extract_rt_from_scan]: the whole body is under [try/except], which
    returns [0.0]. *)
Definition extract_rt_from_scan (s : spectrum) : Q :=
  let estimate : py Q :=
    scan_num ← extract_scan_number (sp_ID s);
    mret (inject_Z scan_num) in
  try_except
    match sp_scan_time s with
    | Some (RtSeq (x :: _)) => Ret x
    | Some (RtNum x) => Ret x
    | Some _ => estimate
    | None =>
        match sp_scan_time_in_minutes s with
        | Some (RtSeq (x :: _)) => Ret (x * 60)
        | Some (RtNum x) => Ret (x * 60)
        | _ => estimate
        end
    end
    0.

End ScanNumber.

(** ** Reference data ([ReferenceDataManager]) *)

(** One entry of the ['formulas'] list of the JSON file.  The ['xy'] string
    is given by its non-blank lines, each line by its [', ']-separated
    parts, each part by the number [float] reads from it ([None] when
    [float] raises).  A missing key is [None]. *)
Record formula_data : Type := {
  fd_mf : option string;
  fd_xy : list (list (option Q));
  fd_em : option Q;
  fd_compound_name : option string;
  fd_nominalMass : option Q
}.

Fixpoint parse_xy_lines (lines : list (list (option Q))) : py (list Q * list Q) :=
  match lines with
  | [] => Ret ([], [])
  | [Some m; Some v] :: rest =>
      '(mz_values, intensity_values) ← parse_xy_lines rest;
      mret (m :: mz_values, v :: intensity_values)
  | [_; _] :: _ => Raise
  | _ :: rest => parse_xy_lines rest
  end.

(** [parse_xy_string]: two arrays filled in step; any exception gives two
    empty arrays. *)
Definition parse_xy_string (lines : list (list (option Q))) : list Q * list Q :=
  try_except (parse_xy_lines lines) ([], []).

Record reference : Type := {
  ref_mz : list Q;
  ref_intensity : list Q;
  ref_compound_name : string;
  ref_exact_mass : Q;
  ref_nominal_mass : Q
}.

(** A compound configuration: the entries of [DETECTION_CONFIG] and the
    compound's own.  The plot colour is left out. *)
Record compound_config : Type := {
  cfg_formula : string;
  cfg_target_mz : Q;
  cfg_compound_name : string;
  cfg_mz_tolerance : Q;
  cfg_min_intensity_threshold : Q;
  cfg_min_isotope_matches : nat;
  cfg_intensity_tolerance : Q;
  cfg_mz_tolerance_validation : Q
}.

(** [DETECTION_CONFIG] applied to a compound. *)
Definition with_DETECTION_CONFIG (formula : string) (exact_mass : Q)
    (compound_name : string) : compound_config :=
  {| cfg_formula := formula;
     cfg_target_mz := exact_mass;
     cfg_compound_name := compound_name;
     cfg_mz_tolerance := 0.3;
     cfg_min_intensity_threshold := 1000;
     cfg_min_isotope_matches := 1;
     cfg_intensity_tolerance := 0.35;
     cfg_mz_tolerance_validation := 0.015 |}.

(** [d[k] = v] on an insertion-ordered [dict]. *)
Fixpoint dict_set {V} (k : string) (v : V) (d : list (string * V)) : list (string * V) :=
  match d with
  | [] => [(k, v)]
  | (k', v') :: d' =>
      if String.eqb k k' then (k, v) :: d' else (k', v') :: dict_set k v d'
  end.

Record ReferenceDataManager : Type := {
  reference_data : gmap string reference;
  compounds_config : list (string * compound_config)
}.

(** The body of the loop of [_load_all_references] for one entry. *)
Definition load_reference (self : ReferenceDataManager) (fd : formula_data)
    : ReferenceDataManager :=
  match fd_mf fd with
  | None | Some EmptyString => self
  | Some formula =>
      let '(mz_array, intensity_array) := parse_xy_string (fd_xy fd) in
      if (0 <? length mz_array)%nat then
        let exact_mass := default 0 (fd_em fd) in
        let compound_name := default formula (fd_compound_name fd) in
        {| reference_data :=
             <[formula :=
                 {| ref_mz := mz_array;
                    ref_intensity := intensity_array;
                    ref_compound_name := compound_name;
                    ref_exact_mass := exact_mass;
                    ref_nominal_mass := default 0 (fd_nominalMass fd) |}]>
               (reference_data self);
           compounds_config :=
             dict_set formula
               (with_DETECTION_CONFIG formula exact_mass compound_name)
               (compounds_config self) |}
      else self
  end.

(** [_load_all_references], from the parsed ['formulas'] list. *)
Definition load_all_references (data : list formula_data) : ReferenceDataManager :=
  fold_left load_reference data
    {| reference_data := ∅; compounds_config := [] |}.

Definition get_reference (self : ReferenceDataManager) (formula : string)
    : option reference :=
  reference_data self !! formula.

(** ** Detection and validation ([CompoundDetector]) *)

Record detection : Type := {
  det_mz : Q;
  det_intensity : Q;
  det_mz_error_ppm : Q;
  det_region_peaks : nat;
  det_target_mz : Q
}.

Record isotope_match : Type := {
  im_reference_mz : Q;
  im_reference_intensity : Q;
  im_detected_mz : Q;
  im_detected_intensity : Q;
  im_expected_mz : Q;
  im_mz_error : Q;
  im_intensity_ratio : Q;
  im_intensity_error : Q;
  im_note : string
}.

Record validation_result : Type := {
  is_valid : bool;
  match_count : nat;
  required_matches : nat;
  matches : list isotope_match;
  validation_score : Q;
  main_peak_intensity : Q;
  mass_error_ppm : Q;
  mass_accuracy_ok : bool;
  validation_criteria : string;
  main_peak_match : bool
}.

(** [(mz_array >= target_mz - tolerance) & (mz_array <= target_mz + tolerance)] *)
Definition window_mask (mz_array : list Q) (target_mz tolerance : Q) : list bool :=
  map (fun m => Qle_bool (target_mz - tolerance) m && Qle_bool m (target_mz + tolerance))
      mz_array.

(** The closed interval the mask selects. *)
Definition in_window (target_mz tolerance m : Q) : Prop :=
  target_mz - tolerance <= m /\ m <= target_mz + tolerance.

(** [peak_indices[np.argmax(region_intensity[peak_indices])]] *)
Definition highest_peak (region_intensity : list Q) (peak_indices : list nat) : py nat :=
  peak_intensities ← take region_intensity peak_indices;
  k ← argmax peak_intensities;
  getitem peak_indices k.

(** The three class flags both methods compute. *)
Definition is_topse (cfg : compound_config) : bool :=
  contains "TOPSe" (cfg_compound_name cfg) || contains "C24H52PSe" (cfg_formula cfg).

Definition is_oleic (cfg : compound_config) : bool :=
  contains "Oleic" (cfg_compound_name cfg) || contains "C18H35O2" (cfg_formula cfg).

Definition is_top (cfg : compound_config) : bool :=
  contains "TOP" (cfg_compound_name cfg) && negb (contains "TOPSe" (cfg_compound_name cfg)).

(** The intensity floor of [detect_compound_in_spectrum]: the configured
    one, adjusted by tests on the compound name alone (the three flags
    above are computed by the method and not used). *)
Definition min_intensity (cfg : compound_config) : Q :=
  let compound_name := cfg_compound_name cfg in
  if contains "TOPSe" compound_name then 2000
  else if contains "TOP" compound_name && negb (contains "TOPSe" compound_name) then 2000
  else if contains "Oleic" compound_name then 1000
  else cfg_min_intensity_threshold cfg.

(** The intensity threshold of [validate_against_reference]. *)
Definition min_intensity_threshold (cfg : compound_config) : Q :=
  if is_topse cfg then 2000
  else if is_top cfg then 2000
  else if is_oleic cfg then 1000
  else 1000.

Definition ppm_error (mz target_mz : Q) : Q :=
  Qabs (mz - target_mz) / target_mz * 1e6.

Section Detector.

(** [find_peaks x height distance prominence]: the indices
    [scipy.signal.find_peaks(x, height=, distance=, prominence=)] returns,
    with [None] for a [prominence] that is not given. *)
Variable find_peaks : list Q -> Q -> nat -> option Q -> list nat.

(** The body of the [try] of [detect_compound_in_spectrum], from the current
    [(max_intensity, max_mz)] to the updated pair; [except: pass] keeps what
    was assigned before the exception. *)
Definition refine_with_peaks (region_mz region_intensity : list Q) (floor : Q)
    (max_intensity max_mz : Q) : Q * Q :=
  let peak_indices := find_peaks region_intensity floor 1%nat None in
  if (0 <? length peak_indices)%nat then
    match highest_peak region_intensity peak_indices with
    | Raise => (max_intensity, max_mz)
    | Ret best_peak_idx =>
        match getitem region_intensity best_peak_idx with
        | Raise => (max_intensity, max_mz)
        | Ret max_intensity' =>
            match getitem region_mz best_peak_idx with
            | Raise => (max_intensity', max_mz)
            | Ret max_mz' => (max_intensity', max_mz')
            end
        end
    end
  else (max_intensity, max_mz).

(** [CompoundDetector.detect_compound_in_spectrum], the sweep-time locator. *)
Definition detect_compound_in_spectrum (mz_array intensity_array : list Q)
    (cfg : compound_config) : py (option detection) :=
  let target_mz := cfg_target_mz cfg in
  let mz_tolerance := cfg_mz_tolerance cfg in
  let floor := min_intensity cfg in
  let mask := window_mask mz_array target_mz mz_tolerance in
  if negb (any mask) then Ret None
  else
    region_mz ← compress mz_array mask;
    region_intensity ← compress intensity_array mask;
    max_idx ← argmax region_intensity;
    max_intensity ← getitem region_intensity max_idx;
    max_mz ← getitem region_mz max_idx;
    if Qlt_bool max_intensity floor then Ret None
    else
      let '(max_intensity, max_mz) :=
        if (3 <? length region_intensity)%nat
        then refine_with_peaks region_mz region_intensity floor max_intensity max_mz
        else (max_intensity, max_mz) in
      Ret (Some {| det_mz := max_mz;
                   det_intensity := max_intensity;
                   det_mz_error_ppm := ppm_error max_mz target_mz;
                   det_region_peaks := length region_intensity;
                   det_target_mz := target_mz |}).

End Detector.

(** The loop of [validate_against_reference] over
    [zip(ref_mz, ref_intensity_norm)], with its [break]: the result is
    [(main_peak_match, matches)]. *)
Fixpoint main_peak_loop (pairs : list (Q * Q)) (main_mz main_intensity mz_shift
    validation_tolerance : Q) : bool * list isotope_match :=
  match pairs with
  | [] => (false, [])
  | (ref_mz_val, ref_int_val) :: rest =>
      if Qle_bool 0.01 ref_int_val then
        let expected_mz := ref_mz_val + mz_shift in
        let mz_error := Qabs (main_mz - expected_mz) in
        if Qle_bool mz_error validation_tolerance then
          if Qle_bool 0.5 ref_int_val then
            (true,
             [{| im_reference_mz := ref_mz_val;
                 im_reference_intensity := ref_int_val;
                 im_detected_mz := main_mz;
                 im_detected_intensity := main_intensity;
                 im_expected_mz := expected_mz;
                 im_mz_error := mz_error;
                 im_intensity_ratio := 1;
                 im_intensity_error := 0;
                 im_note := "main peak match" |}])
          else (false, [])
        else main_peak_loop rest main_mz main_intensity mz_shift validation_tolerance
      else main_peak_loop rest main_mz main_intensity mz_shift validation_tolerance
  end.

(** [CompoundDetector.validate_against_reference].  The empty [dict] of the
    early return is [None]. *)
Definition validate_against_reference (reference_manager : ReferenceDataManager)
    (d : detection) (cfg : compound_config) : py (bool * option validation_result) :=
  match get_reference reference_manager (cfg_formula cfg) with
  | None => Ret (false, None)
  | Some reference =>
      let ref_mz := ref_mz reference in
      let ref_intensity := ref_intensity reference in
      top ← amax ref_intensity;
      let ref_intensity_norm := map (fun v => v / top) ref_intensity in
      let validation_tolerance := cfg_mz_tolerance_validation cfg in
      let main_mz := det_mz d in
      let main_intensity := det_intensity d in
      main_idx ← argmax ref_intensity_norm;
      theoretical_main_mz ← getitem ref_mz main_idx;
      let mz_shift := main_mz - theoretical_main_mz in
      let '(main_peak_match, matches) :=
        main_peak_loop (zip ref_mz ref_intensity_norm) main_mz main_intensity
          mz_shift validation_tolerance in
      let min_matches := cfg_min_isotope_matches cfg in
      let mass_error_ppm := ppm_error main_mz (cfg_target_mz cfg) in
      let mass_accuracy_ok := Qlt_bool mass_error_ppm 300 in
      let is_valid :=
        Qle_bool (min_intensity_threshold cfg) main_intensity && mass_accuracy_ok in
      Ret (is_valid,
           Some {| is_valid := is_valid;
                   match_count := length matches;
                   required_matches := min_matches;
                   matches := matches;
                   validation_score := if main_peak_match then 1 else 0.5;
                   main_peak_intensity := main_intensity;
                   mass_error_ppm := mass_error_ppm;
                   mass_accuracy_ok := mass_accuracy_ok;
                   validation_criteria := "mass_accuracy_plus_intensity";
                   main_peak_match := main_peak_match |})
  end.

(** What the loop tests of a pair of [zip(ref_mz, ref_intensity_norm)]
    before it looks at the 50% level: a normalised intensity of at least
    1% and a shifted m/z within the validation tolerance of the detected
    one. *)
Definition near_detected (main_mz mz_shift validation_tolerance : Q) (pair : Q * Q) : Prop :=
  0.01 <= pair.2 /\ Qabs (main_mz - (pair.1 + mz_shift)) <= validation_tolerance.

(** The compounds of the high-threshold class of the validator. *)
Definition high_threshold_class (cfg : compound_config) : bool :=
  contains "TOPSe" (cfg_compound_name cfg)
  || contains "C24H52PSe" (cfg_formula cfg)
  || (contains "TOP" (cfg_compound_name cfg)
      && negb (contains "TOPSe" (cfg_compound_name cfg))).

(** A stored reference has two arrays of one length, which is not zero. *)
Definition wf_reference (r : reference) : Prop :=
  length (ref_mz r) = length (ref_intensity r) /\ ref_mz r <> [].

Definition wf_store (self : ReferenceDataManager) : Prop :=
  forall formula r, reference_data self !! formula = Some r -> wf_reference r.

(** ** The scan sweep ([SpectrumAnalyzer]) *)

(** The object [SpectrumAnalyzer] is built with: it is only asked for its
    two methods. *)
Record compound_detector : Type := {
  detect : list Q -> list Q -> compound_config -> py (option detection);
  validate : detection -> compound_config -> py (bool * option validation_result)
}.

(** [CompoundDetector(reference_manager)] *)
Definition CompoundDetector (find_peaks : list Q -> Q -> nat -> option Q -> list nat)
    (reference_manager : ReferenceDataManager) : compound_detector :=
  {| detect := detect_compound_in_spectrum find_peaks;
     validate := validate_against_reference reference_manager |}.

(** An entry of [ms1_spectra]. *)
Record ms1_spectrum : Type := {
  ms_scan : Z;
  ms_rt : Q;
  ms_mz_array : list Q;
  ms_intensity_array : list Q
}.

(** A detection after [detection.update(...)]. *)
Record validated_detection : Type := {
  vd_detection : detection;
  vd_scan : Z;
  vd_rt : Q;
  vd_validation : option validation_result
}.

Record compound_result : Type := {
  optimal_detection : validated_detection;
  all_detections : list validated_detection;
  detection_count : nat
}.

Definition vd_intensity (x : validated_detection) : Q :=
  det_intensity (vd_detection x).

Section Analyzer.

Variable py_int : string -> option Z.
Variable isdigit : string -> bool.
Variable compound_detector : compound_detector.

(** The first loop of [analyze_sample_for_compounds]: the MS1 spectra with
    a positive scan number, in the order of the run. *)
Fixpoint collect_ms1 (run : list spectrum) : py (list ms1_spectrum) :=
  match run with
  | [] => Ret []
  | s :: run' =>
      if (sp_ms_level s =? 1)%Z then
        scan_num ← extract_scan_number py_int isdigit (sp_ID s);
        if (0 <? scan_num)%Z then
          let rt := extract_rt_from_scan py_int isdigit s in
          ms1_spectra ← collect_ms1 run';
          mret ({| ms_scan := scan_num;
                   ms_rt := rt;
                   ms_mz_array := sp_mz s;
                   ms_intensity_array := sp_i s |} :: ms1_spectra)
        else collect_ms1 run'
      else collect_ms1 run'
  end.

(** The loop over [ms1_spectra] for one compound, from the current
    [all_detections] and [detection_count]. *)
Fixpoint sweep (ms1_spectra : list ms1_spectrum) (cfg : compound_config)
    (all_detections : list validated_detection) (detection_count : nat)
    : py (list validated_detection * nat) :=
  match ms1_spectra with
  | [] => Ret (all_detections, detection_count)
  | s :: rest =>
      d ← detect compound_detector (ms_mz_array s) (ms_intensity_array s) cfg;
      match d with
      | None => sweep rest cfg all_detections detection_count
      | Some d =>
          '(valid, validation) ← validate compound_detector d cfg;
          if valid : bool then
            sweep rest cfg
              (all_detections ++
                 [{| vd_detection := d;
                     vd_scan := ms_scan s;
                     vd_rt := ms_rt s;
                     vd_validation := validation |}])
              (S detection_count)
          else sweep rest cfg all_detections (S detection_count)
      end
  end.

(** The sweep as a relation: [accepted_of cfg ms1_spectra l] when [l]
    lists, in scan order, the candidates the locator returned and the
    validator accepted, and neither method raised. *)
Inductive accepted_of (cfg : compound_config)
    : list ms1_spectrum -> list validated_detection -> Prop :=
| accepted_done : accepted_of cfg [] []
| accepted_absent s rest l :
    detect compound_detector (ms_mz_array s) (ms_intensity_array s) cfg = Ret None ->
    accepted_of cfg rest l ->
    accepted_of cfg (s :: rest) l
| accepted_rejected s rest l d validation :
    detect compound_detector (ms_mz_array s) (ms_intensity_array s) cfg = Ret (Some d) ->
    validate compound_detector d cfg = Ret (false, validation) ->
    accepted_of cfg rest l ->
    accepted_of cfg (s :: rest) l
| accepted_valid s rest l d validation :
    detect compound_detector (ms_mz_array s) (ms_intensity_array s) cfg = Ret (Some d) ->
    validate compound_detector d cfg = Ret (true, validation) ->
    accepted_of cfg rest l ->
    accepted_of cfg (s :: rest)
      ({| vd_detection := d;
          vd_scan := ms_scan s;
          vd_rt := ms_rt s;
          vd_validation := validation |} :: l).

(** What is stored in [results[formula]] after the loop: [None] is the
    value [None] of the source. *)
Definition select_optimal (all_detections : list validated_detection)
    : py (option compound_result) :=
  match all_detections with
  | [] => Ret None
  | _ :: _ =>
      optimal ← max_key vd_intensity all_detections;
      mret (Some {| optimal_detection := optimal;
                    all_detections := all_detections;
                    detection_count := length all_detections |})
  end.

(** The body of the loop over the compounds, for one compound. *)
Definition analyze_compound (ms1_spectra : list ms1_spectrum) (cfg : compound_config)
    : py (option compound_result) :=
  '(all_detections, _) ← sweep ms1_spectra cfg [] 0%nat;
  select_optimal all_detections.

(** The loop over [compounds_config.items()]. *)
Fixpoint analyze_compounds (ms1_spectra : list ms1_spectrum)
    (configs : list (string * compound_config))
    (results : gmap string (option compound_result))
    : py (gmap string (option compound_result)) :=
  match configs with
  | [] => Ret results
  | (formula, cfg) :: configs' =>
      r ← analyze_compound ms1_spectra cfg;
      analyze_compounds ms1_spectra configs' (<[formula := r]> results)
  end.

(** [SpectrumAnalyzer.analyze_sample_for_compounds] on the spectra the
    reader yields; an exception anywhere gives the empty [dict]. *)
Definition analyze_sample_for_compounds (run : list spectrum)
    (configs : list (string * compound_config))
    : gmap string (option compound_result) :=
  try_except
    (ms1_spectra ← collect_ms1 run;
     analyze_compounds ms1_spectra configs ∅)
    ∅.

End Analyzer.

(** ** The plot-time locator ([PeakDetector],
    [Plot_Compounds_Validation_Analysis.py]) *)

Record peak : Type := {
  peak_mz : Q;
  peak_intensity : Q;
  corrected : bool
}.

Section PeakDetector.

Variable find_peaks : list Q -> Q -> nat -> option Q -> list nat.

(** The [if len(region_intensity) > 3] block: [Some] is its [return],
    [None] falls through to the simple maximum. *)
Definition true_peak (region_mz region_intensity : list Q) : py (option peak) :=
  if (3 <? length region_intensity)%nat then
    top ← amax region_intensity;
    let peak_indices :=
      find_peaks region_intensity (top * 0.1) 3%nat (Some (top * 0.05)) in
    if (0 <? length peak_indices)%nat then
      best_peak_idx ← highest_peak region_intensity peak_indices;
      true_peak_mz ← getitem region_mz best_peak_idx;
      true_peak_intensity ← getitem region_intensity best_peak_idx;
      mret (Some {| peak_mz := true_peak_mz;
                    peak_intensity := true_peak_intensity;
                    corrected := true |})
    else Ret None
  else Ret None.

(** [PeakDetector.find_true_peak_maximum] *)
Definition find_true_peak_maximum (mz_array intensity_array : list Q)
    (target_mz tolerance : Q) : py (option peak) :=
  let mask := window_mask mz_array target_mz tolerance in
  if negb (any mask) then Ret None
  else
    region_mz ← compress mz_array mask;
    region_intensity ← compress intensity_array mask;
    found ← true_peak region_mz region_intensity;
    match found with
    | Some p => Ret (Some p)
    | None =>
        max_idx ← argmax region_intensity;
        m ← getitem region_mz max_idx;
        v ← getitem region_intensity max_idx;
        mret (Some {| peak_mz := m; peak_intensity := v; corrected := false |})
    end.

End PeakDetector.

(** ** Executable instances of the library parameters *)

Module Instances.

(** [int] and [str.isdigit] on strings of ASCII decimal digits. *)
Definition digit_of (c : ascii) : option Z :=
  let n := nat_of_ascii c in
  if ((48 <=? n) && (n <=? 57))%nat then Some (Z.of_nat (n - 48)) else None.

Fixpoint digits_value (acc : Z) (s : string) : option Z :=
  match s with
  | EmptyString => Some acc
  | String c s' =>
      match digit_of c with
      | Some d => digits_value (10 * acc + d)%Z s'
      | None => None
      end
  end.

Definition ascii_int (s : string) : option Z :=
  match s with
  | EmptyString => None
  | String _ _ => digits_value 0%Z s
  end.

Definition ascii_isdigit (s : string) : bool :=
  match ascii_int s with
  | Some _ => true
  | None => false
  end.

(** A peak finder after [scipy.signal.find_peaks]: the local maxima (the
    middle of a flat top), then the [height], [distance] and [prominence]
    conditions in that order. *)
Definition value (x : list Q) (p : nat) : Q := default 0 (x !! p).

(** How many elements equal to [v] start [l], and the element after them. *)
Fixpoint plateau (v : Q) (l : list Q) : nat * option Q :=
  match l with
  | [] => (0%nat, None)
  | y :: l' =>
      if Qeq_bool y v then
        let '(n, after) := plateau v l' in (S n, after)
      else (0%nat, Some y)
  end.

Fixpoint local_maxima_from (prev : Q) (k : nat) (l : list Q) : list nat :=
  match l with
  | [] => []
  | x :: l' =>
      let later := local_maxima_from x (S k) l' in
      if Qlt_bool prev x then
        match plateau x l' with
        | (n, Some y) => if Qlt_bool y x then (k + n / 2)%nat :: later else later
        | (_, None) => later
        end
      else later
  end.

Definition local_maxima (x : list Q) : list nat :=
  match x with
  | [] => []
  | x0 :: l => local_maxima_from x0 1%nat l
  end.

(** The lowest value met walking away from a peak of height [v] while the
    signal stays at or below [v]. *)
Fixpoint base_min (v cur : Q) (l : list Q) : Q :=
  match l with
  | [] => cur
  | y :: l' =>
      if Qle_bool y v then base_min v (if Qlt_bool y cur then y else cur) l'
      else cur
  end.

Definition prominence_of (x : list Q) (p : nat) : Q :=
  let v := value x p in
  let left_min := base_min v v (rev (firstn p x)) in
  let right_min := base_min v v (skipn (S p) x) in
  v - (if Qlt_bool left_min right_min then right_min else left_min).

(** The peaks by decreasing height, the later position first among equal
    heights. *)
Fixpoint insert_by_priority (x : list Q) (p : nat) (order : list nat) : list nat :=
  match order with
  | [] => [p]
  | q :: order' =>
      if Qlt_bool (value x p) (value x q) then q :: insert_by_priority x p order'
      else p :: order
  end.

Definition by_priority (x : list Q) (peaks : list nat) : list nat :=
  fold_left (fun order p => insert_by_priority x p order) peaks [].

(** A peak is kept unless a kept peak of higher priority is closer than
    [distance]. *)
Fixpoint keep_by_distance (distance : nat) (order kept : list nat) : list nat :=
  match order with
  | [] => kept
  | p :: order' =>
      if forallb (fun q => (distance <=? (if p <? q then q - p else p - q))%nat) kept
      then keep_by_distance distance order' (p :: kept)
      else keep_by_distance distance order' kept
  end.

Definition find_peaks (x : list Q) (height : Q) (distance : nat)
    (prominence : option Q) : list nat :=
  let peaks := local_maxima x in
  let peaks := List.filter (fun p => Qle_bool height (value x p)) peaks in
  let kept := keep_by_distance distance (by_priority x peaks) [] in
  let peaks := List.filter (fun p => existsb (Nat.eqb p) kept) peaks in
  match prominence with
  | None => peaks
  | Some least => List.filter (fun p => Qle_bool least (prominence_of x p)) peaks
  end.

End Instances.

(** ** Sample data *)

Module Examples.

(** Entries of a reference file: oleic acid with its name, the selenide
    [C24H52PSe] without a [_metadata] name, a pattern with two peaks 0.01
    apart, and an entry without peaks. *)
Definition oleic_entry : formula_data :=
  {| fd_mf := Some "C18H35O2";
     fd_xy := [[Some 283.2637; Some 100]; [Some 284.2671; Some 19.8];
               [Some 285.2704; Some 2.3]];
     fd_em := Some 283.2637;
     fd_compound_name := Some "Oleic acid";
     fd_nominalMass := Some 283 |}.

Definition selenide_entry : formula_data :=
  {| fd_mf := Some "C24H52PSe";
     fd_xy := [[Some 447.3001; Some 17]; [Some 449.2981; Some 48];
               [Some 451.2973; Some 100]; [Some 453.2975; Some 18]];
     fd_em := Some 451.2973;
     fd_compound_name := None;
     fd_nominalMass := Some 451 |}.

Definition close_pair_entry : formula_data :=
  {| fd_mf := Some "C6H12O";
     fd_xy := [[Some 100.00; Some 10]; [Some 100.01; Some 100]];
     fd_em := Some 100.01;
     fd_compound_name := Some "Hexanal";
     fd_nominalMass := Some 100 |}.

Definition empty_entry : formula_data :=
  {| fd_mf := Some "C3H8";
     fd_xy := [];
     fd_em := Some 44.0626;
     fd_compound_name := Some "Propane";
     fd_nominalMass := Some 44 |}.

Definition reference_file : list formula_data :=
  [oleic_entry; selenide_entry; close_pair_entry; empty_entry].

Definition oleic : compound_config :=
  with_DETECTION_CONFIG "C18H35O2" 283.2637 "Oleic acid".

Definition selenide : compound_config :=
  with_DETECTION_CONFIG "C24H52PSe" 451.2973 "C24H52PSe".

Definition hexanal : compound_config :=
  with_DETECTION_CONFIG "C6H12O" 100.01 "Hexanal".

Definition propane : compound_config :=
  with_DETECTION_CONFIG "C3H8" 44.0626 "Propane".

Definition oleic_reference : reference :=
  {| ref_mz := [283.2637; 284.2671; 285.2704];
     ref_intensity := [100; 19.8; 2.3];
     ref_compound_name := "Oleic acid";
     ref_exact_mass := 283.2637;
     ref_nominal_mass := 283 |}.

Definition hexanal_reference : reference :=
  {| ref_mz := [100.00; 100.01];
     ref_intensity := [10; 100];
     ref_compound_name := "Hexanal";
     ref_exact_mass := 100.01;
     ref_nominal_mass := 100 |}.

(** Candidates. *)
Definition candidate (mz intensity target_mz : Q) : detection :=
  {| det_mz := mz;
     det_intensity := intensity;
     det_mz_error_ppm := ppm_error mz target_mz;
     det_region_peaks := 1;
     det_target_mz := target_mz |}.

Definition at_threshold : detection := candidate 283.27 1000 283.2637.

Definition on_main_peak : detection := candidate 100.01 5000 100.01.

(** A spectrum around the oleic acid target. *)
Definition scenario_mz : list Q := [282.0; 283.26; 283.27; 284.0].
Definition scenario_intensity : list Q := [50; 1000; 1200; 40].

(** Spectra of a run, as [pymzml] yields them. *)
Definition scan (id : scan_id) (mz intensity : list Q) : spectrum :=
  {| sp_ID := id;
     sp_ms_level := 1;
     sp_scan_time := None;
     sp_scan_time_in_minutes := None;
     sp_mz := mz;
     sp_i := intensity |}.

Definition run : list spectrum :=
  [scan (IdStr "controllerType=0 controllerNumber=1 scan=1")
        [283.10; 283.2637; 283.40] [40; 1200; 30];
   scan (IdStr "controllerType=0 controllerNumber=1 scan=2")
        [283.10; 283.2637; 283.40] [40; 1800; 30];
   scan (IdStr "controllerType=0 controllerNumber=1 scan=3")
        [283.10; 283.2637; 283.40] [40; 1800; 30];
   scan (IdStr "controllerType=0 controllerNumber=1 scan=4")
        [283.10; 283.2637; 283.40] [40; 500; 30]].

Definition unnumbered : spectrum :=
  scan (IdStr "merged spectrum") [283.10; 283.2637; 283.40] [40; 9000; 30].

Definition ms1 (n : Z) (mz intensity : list Q) : ms1_spectrum :=
  {| ms_scan := n; ms_rt := inject_Z n; ms_mz_array := mz; ms_intensity_array := intensity |}.

Definition ms1_spectra : list ms1_spectrum :=
  [ms1 1 [283.10; 283.2637; 283.40] [40; 1200; 30];
   ms1 2 [283.10; 283.2637; 283.40] [40; 1800; 30];
   ms1 3 [283.10; 283.2637; 283.40] [40; 1600; 30]].

Definition weak : ms1_spectrum := ms1 5 [283.26; 283.27] [500; 800].

(** A spectrum with 1500 counts at the selenide target. *)
Definition selenide_mz : list Q := [451.20; 451.2973; 451.40].
Definition selenide_intensity : list Q := [100; 1500; 90].

Definition detector : compound_detector :=
  CompoundDetector Instances.find_peaks (load_all_references reference_file).

End Examples.

(** ** Further methods of [plot_compounds_json.py] *)

(** [d.get(k)] on an insertion-ordered [dict]. *)
Fixpoint dict_get {V} (k : string) (d : list (string * V)) : option V :=
  match d with
  | [] => None
  | (k', v) :: d' => if String.eqb k k' then Some v else dict_get k d'
  end.

(** [ReferenceDataManager.get_compound_config] *)
Definition get_compound_config (self : ReferenceDataManager) (formula : string)
    : option compound_config :=
  dict_get formula (compounds_config self).

(** The configuration the loader derives from a stored reference. *)
Definition config_of (formula : string) (r : reference) : compound_config :=
  with_DETECTION_CONFIG formula (ref_exact_mass r) (ref_compound_name r).

(** The two dictionaries of the manager hold the same formulas, each
    configuration being the one of its reference. *)
Definition in_step (self : ReferenceDataManager) : Prop :=
  List.NoDup (map fst (compounds_config self)) /\
  forall formula,
    dict_get formula (compounds_config self) =
    config_of formula <$> (reference_data self !! formula).

Section SingleSpectrum.

Variable py_int : string -> option Z.
Variable isdigit : string -> bool.

(** The loop of [_extract_single_spectrum]: the arrays of the first
    spectrum of the run, of any MS level, whose scan number is [scan_num]. *)
Fixpoint single_spectrum_loop (run : list spectrum) (scan_num : Z)
    : py (option (list Q * list Q)) :=
  match run with
  | [] => Ret None
  | s :: run' =>
      n ← extract_scan_number py_int isdigit (sp_ID s);
      if (n =? scan_num)%Z then Ret (Some (sp_mz s, sp_i s))
      else single_spectrum_loop run' scan_num
  end.

(** [ComprehensivePlotGenerator._extract_single_spectrum] on the spectra
    the reader yields; an exception gives [None]. *)
Definition extract_single_spectrum (run : list spectrum) (scan_num : Z)
    : option (list Q * list Q) :=
  try_except (single_spectrum_loop run scan_num) None.

End SingleSpectrum.

(** The test of [analyze_all_samples] for a priority compound:
    [any(priority in compound_name for priority in [...])]. *)
Definition is_priority (compound_name : string) : bool :=
  existsb (fun priority => contains priority compound_name)
          ["TOP"; "TOPO"; "TOPSe"; "Oleic"]%string.

(** The loop of [analyze_all_samples] that fills [priority_compounds] and
    [other_compounds]. *)
Definition split_priority (configs : list (string * compound_config))
    : list (string * compound_config) * list (string * compound_config) :=
  fold_left
    (fun lists item =>
       if is_priority (cfg_compound_name item.2)
       then (lists.1 ++ [item], lists.2)
       else (lists.1, lists.2 ++ [item]))
    configs ([], []).

(** [sum(1 for plot in successful_plots if formula in plot)] of
    [_generate_summary_report]. *)
Definition plotted_count (formula : string) (successful_plots : list string) : nat :=
  length (List.filter (contains formula) successful_plots).

(** The entry [f"{sample_name}_{formula}"] of [successful_plots]. *)
Definition plot_name (sample_name formula : string) : string :=
  (sample_name ++ "_" ++ formula)%string.

(** The sample type of [_save_analysis_results]. *)
Definition sample_type (sample_name : string) : string :=
  if contains "PbSe1" sample_name then "PbSe1"
  else if contains "PbSe7" sample_name then "PbSe7"
  else "PbSe10".







(** ** Further methods of [Plot_Compounds_Validation_Analysis.py] *)

(** [safe_rt_extraction]: an attribute that cannot be read gives [None]. *)
Definition safe_rt_extraction (s : spectrum) : option Q :=
  match sp_scan_time s with
  | Some (RtSeq (x :: _)) => Some x
  | Some (RtNum x) => Some x
  | _ => None
  end.

Record spectrum_data : Type := {
  sd_mz_array : list Q;
  sd_intensity_array : list Q;
  sd_rt : option Q;
  sd_scan_id : Z
}.

Section SpectrumExtractor.

Variable py_int : string -> option Z.

(** [SpectrumExtractor._extract_scan_number]: [None] is the value [None]. *)
Definition extractor_scan_number (id : scan_id) : option Z :=
  match id with
  | IdInt n => Some n
  | IdStr s => py_int (split_last "scan=" s)
  | IdOther => None
  end.

(** [SpectrumExtractor.extract_spectrum_at_scan] on the spectra the reader
    yields. *)
Fixpoint extract_spectrum_at_scan (run : list spectrum) (target_scan : Z)
    : option spectrum_data :=
  match run with
  | [] => None
  | s :: run' =>
      if (sp_ms_level s =? 1)%Z then
        match extractor_scan_number (sp_ID s) with
        | Some scan_num =>
            if (scan_num =? target_scan)%Z then
              Some {| sd_mz_array := sp_mz s;
                      sd_intensity_array := sp_i s;
                      sd_rt := safe_rt_extraction s;
                      sd_scan_id := scan_num |}
            else extract_spectrum_at_scan run' target_scan
        | None => extract_spectrum_at_scan run' target_scan
        end
      else extract_spectrum_at_scan run' target_scan
  end.

End SpectrumExtractor.




(** ** Further sample data *)

Module MoreExamples.

(** The collected spectra of [Examples.run]. *)
Definition collected : list ms1_spectrum :=
  [Examples.ms1 1 [283.10; 283.2637; 283.40] [40; 1200; 30];
   Examples.ms1 2 [283.10; 283.2637; 283.40] [40; 1800; 30];
   Examples.ms1 3 [283.10; 283.2637; 283.40] [40; 1800; 30];
   Examples.ms1 4 [283.10; 283.2637; 283.40] [40; 500; 30]].



(** An [xy] string with a line of one part. *)
Definition xy_lines : list (list (option Q)) :=
  [[Some 1; Some 2]; [Some 3]; [Some 4; Some 5]].

Definition plots : list string :=
  [plot_name "PbSe1_Pos_1" "C24H52P"; plot_name "PbSe1_Pos_1" "C24H52PSe";
   plot_name "PbSe7_Pos_1" "C24H52PSe"].


End MoreExamples.

(** * Properties *)

(** ** Facts about the primitives *)

Section PyFacts.

Lemma Qlt_bool_iff (x y : Q) : Qlt_bool x y = true <-> x < y.
Proof.
  unfold Qlt_bool. rewrite negb_true_iff. split.
  - intros H. apply Qnot_le_lt. intros Hle.
    apply Qle_bool_iff in Hle. congruence.
  - intros H. destruct (Qle_bool y x) eqn:E; [|reflexivity].
    apply Qle_bool_iff in E. exfalso. exact (Qlt_not_le _ _ H E).
Qed.

Lemma Qlt_bool_false (x y : Q) : Qlt_bool x y = false <-> y <= x.
Proof.
  unfold Qlt_bool. rewrite negb_false_iff. apply Qle_bool_iff.
Qed.

Lemma bind_Ret {A B} (m : py A) (f : A -> py B) (b : B) :
  m ≫= f = Ret b -> exists a, m = Ret a /\ f a = Ret b.
Proof. destruct m as [a|]; simpl; [eauto | discriminate]. Qed.

Lemma getitem_Ret {A} (arr : list A) (k : nat) (a : A) :
  getitem arr k = Ret a <-> arr !! k = Some a.
Proof.
  unfold getitem. destruct (arr !! k); split; intros H; congruence.
Qed.

Lemma lookup_In {A} (l : list A) (k : nat) (a : A) : l !! k = Some a -> In a l.
Proof.
  revert k. induction l as [|x l IH]; intros [|k] H; simpl in *; try discriminate.
  - left. congruence.
  - right. eauto.
Qed.

Lemma In_lookup {A} (l : list A) (a : A) : In a l -> exists k, l !! k = Some a.
Proof.
  induction l as [|x l IH]; simpl; [tauto|].
  intros [->|H].
  - exists 0%nat. reflexivity.
  - destruct (IH H) as [k Hk]. exists (S k). exact Hk.
Qed.

Lemma getitem_In {A} (arr : list A) (k : nat) (a : A) :
  getitem arr k = Ret a -> In a arr.
Proof. rewrite getitem_Ret. apply lookup_In. Qed.

Lemma getitem_lt {A} (arr : list A) (k : nat) :
  (k < length arr)%nat -> exists a, getitem arr k = Ret a.
Proof.
  intros H. unfold getitem. destruct (arr !! k) as [a|] eqn:E; [eauto|].
  apply lookup_ge_None in E. lia.
Qed.

Lemma take_Ret {A} (arr : list A) (ks : list nat) :
  Forall (fun k => (k < length arr)%nat) ks ->
  exists r, take arr ks = Ret r /\ length r = length ks.
Proof.
  induction 1 as [|k ks Hk _ [r [Hr Hlen]]]; simpl.
  - exists []. split; reflexivity.
  - destruct (getitem_lt arr k Hk) as [a ->]. simpl. rewrite Hr. simpl.
    exists (a :: r). split; [reflexivity | simpl; congruence].
Qed.

(** [arr[mask]] returns exactly when the lengths agree. *)
Lemma compress_Ret {A} (arr : list A) (mask : list bool) :
  length arr = length mask -> exists r, compress arr mask = Ret r.
Proof.
  revert mask. induction arr as [|a arr IH]; intros [|b mask] H;
    simpl in *; try discriminate; [eauto|].
  destruct (IH mask) as [r ->]; [congruence|]. simpl. eauto.
Qed.

Lemma compress_length {A} (arr : list A) (mask : list bool) (r : list A) :
  compress arr mask = Ret r -> length arr = length mask.
Proof.
  revert mask r. induction arr as [|a arr IH]; intros [|b mask] r H;
    simpl in *; try discriminate; [reflexivity|].
  apply bind_Ret in H. destruct H as [r' [H _]]. f_equal. eauto.
Qed.

(** Two arrays indexed by one mask give regions of one length. *)
Lemma compress_same_length {A B} (arr : list A) (arr' : list B) (mask : list bool)
    (r : list A) (r' : list B) :
  compress arr mask = Ret r -> compress arr' mask = Ret r' -> length r = length r'.
Proof.
  revert arr' mask r r'.
  induction arr as [|a arr IH]; intros [|a' arr'] [|b mask] r r' H H';
    simpl in *; try discriminate.
  - inversion H; inversion H'; reflexivity.
  - apply bind_Ret in H. destruct H as [s [H Hs]].
    apply bind_Ret in H'. destruct H' as [s' [H' Hs']].
    pose proof (IH _ _ _ _ H H') as Hlen.
    destruct b; inversion Hs; inversion Hs'; simpl; congruence.
Qed.

(** Every element of [arr[mask]] sits in [arr] where the mask is set. *)
Lemma compress_In {A} (arr : list A) (mask : list bool) (r : list A) (a : A) :
  compress arr mask = Ret r -> In a r ->
  exists j, arr !! j = Some a /\ mask !! j = Some true.
Proof.
  revert mask r. induction arr as [|x arr IH]; intros [|b mask] r H Ha;
    simpl in *; try discriminate.
  - inversion H; subst. destruct Ha.
  - apply bind_Ret in H. destruct H as [s [H Hs]].
    destruct b; inversion Hs; subst.
    + destruct Ha as [->|Ha].
      * exists 0%nat. split; reflexivity.
      * destruct (IH _ _ H Ha) as [j [? ?]]. exists (S j). split; assumption.
    + destruct (IH _ _ H Ha) as [j [? ?]]. exists (S j). split; assumption.
Qed.

Lemma compress_nonempty {A} (arr : list A) (mask : list bool) (r : list A) :
  compress arr mask = Ret r -> any mask = true -> r <> [].
Proof.
  revert mask r. induction arr as [|x arr IH]; intros [|b mask] r H Hany;
    simpl in *; try discriminate.
  apply bind_Ret in H. destruct H as [s [H Hs]].
  destruct b; inversion Hs; subst; [discriminate|].
  unfold any in *. simpl in Hany. eauto.
Qed.

Lemma any_false (mask : list bool) :
  any mask = false <-> Forall (fun b => b = false) mask.
Proof.
  unfold any. induction mask as [|b mask IH]; simpl.
  - split; [constructor | reflexivity].
  - rewrite orb_false_iff, IH. unfold id. split.
    + intros [? ?]. constructor; assumption.
    + intros H. inversion H; subst. split; [reflexivity | assumption].
Qed.

(** [np.argmax]: in range and on a greatest element. *)
Lemma argmax_from_spec (l : list Q) (pre : list Q) (best : Q) (besti : nat) :
  pre !! besti = Some best ->
  (forall x, In x pre -> x <= best) ->
  let k := argmax_from best besti (length pre) l in
  exists v, (pre ++ l) !! k = Some v /\ forall x, In x (pre ++ l) -> x <= v.
Proof.
  revert pre best besti. induction l as [|y l IH]; intros pre best besti Hb Hmax; simpl.
  - exists best. rewrite app_nil_r. split; assumption.
  - destruct (Qlt_bool best y) eqn:E.
    + apply Qlt_bool_iff in E.
      specialize (IH (pre ++ [y]) y (length pre)).
      rewrite length_app in IH. simpl in IH.
      replace (length pre + 1)%nat with (S (length pre)) in IH by lia.
      rewrite <- app_assoc in IH. simpl in IH. apply IH.
      * rewrite lookup_app_r by lia. rewrite Nat.sub_diag. reflexivity.
      * intros x Hx. apply in_app_or in Hx. destruct Hx as [Hx|[<-|[]]].
        -- apply Qle_trans with best; [auto | apply Qlt_le_weak; assumption].
        -- apply Qle_refl.
    + apply Qlt_bool_false in E.
      specialize (IH (pre ++ [y]) best besti).
      rewrite length_app in IH. simpl in IH.
      replace (length pre + 1)%nat with (S (length pre)) in IH by lia.
      rewrite <- app_assoc in IH. simpl in IH. apply IH.
      * apply lookup_app_l_Some. assumption.
      * intros x Hx. apply in_app_or in Hx. destruct Hx as [Hx|[<-|[]]]; auto.
Qed.

Lemma argmax_spec (l : list Q) :
  l <> [] ->
  exists k v, argmax l = Ret k /\ l !! k = Some v /\ forall x, In x l -> x <= v.
Proof.
  destruct l as [|x l]; [congruence|]. intros _. simpl.
  destruct (argmax_from_spec l [x] x 0%nat) as [v [Hv Hmax]].
  - reflexivity.
  - intros y [<-|[]]. apply Qle_refl.
  - simpl in Hv. exists (argmax_from x 0%nat 1%nat l), v. auto.
Qed.

Lemma amax_Ret (l : list Q) : l <> [] -> exists v, amax l = Ret v.
Proof. destruct l; [congruence|]. simpl. eauto. Qed.

End PyFacts.

(** ** The tolerance window *)

Section Window.

Lemma window_mask_spec (mz_array : list Q) (t w : Q) (j : nat) (b : bool) :
  window_mask mz_array t w !! j = Some b ->
  exists m, mz_array !! j = Some m /\ (b = true <-> in_window t w m).
Proof.
  unfold window_mask. rewrite list_lookup_fmap.
  destruct (mz_array !! j) as [m|]; simpl; [|discriminate].
  intros [= <-]. exists m. split; [reflexivity|].
  unfold in_window. rewrite andb_true_iff, !Qle_bool_iff. tauto.
Qed.

(** Every element of the region lies in the window. *)
Lemma region_in_window (mz_array : list Q) (t w : Q) (region_mz : list Q) (m : Q) :
  compress mz_array (window_mask mz_array t w) = Ret region_mz ->
  In m region_mz -> in_window t w m.
Proof.
  intros Hc Hm. destruct (compress_In _ _ _ _ Hc Hm) as [j [Hj Hmask]].
  destruct (window_mask_spec _ _ _ _ _ Hmask) as [m' [Hm' Hiff]].
  assert (m' = m) by congruence. subst. apply Hiff. reflexivity.
Qed.

(** No element in the window: the mask has no [True]. *)
Lemma window_mask_none (mz_array : list Q) (t w : Q) :
  (forall m, In m mz_array -> ~ in_window t w m) ->
  any (window_mask mz_array t w) = false.
Proof.
  intros Hout. apply any_false. apply List.Forall_forall. intros b Hb.
  destruct (In_lookup _ _ Hb) as [j Hj].
  destruct (window_mask_spec _ _ _ _ _ Hj) as [m [Hm Hiff]].
  destruct b; [|reflexivity].
  exfalso. apply (Hout m); [eapply lookup_In; eassumption | apply Hiff; reflexivity].
Qed.

(** An element in the window: the mask has a [True]. *)
Lemma window_mask_some (mz_array : list Q) (t w m : Q) :
  In m mz_array -> in_window t w m -> any (window_mask mz_array t w) = true.
Proof.
  intros Hin Hw. destruct (any (window_mask mz_array t w)) eqn:E; [reflexivity|].
  exfalso. rewrite any_false, List.Forall_forall in E.
  destruct (In_lookup _ _ Hin) as [j Hj].
  assert (Hb : window_mask mz_array t w !! j = Some true).
  { unfold window_mask. rewrite list_lookup_fmap, Hj. simpl. f_equal.
    destruct Hw as [H1 H2]. apply Qle_bool_iff in H1, H2. rewrite H1, H2. reflexivity. }
  specialize (E true (lookup_In _ _ _ Hb)). discriminate.
Qed.

Lemma window_mask_length (mz_array : list Q) (t w : Q) :
  length (window_mask mz_array t w) = length mz_array.
Proof. unfold window_mask. apply length_map. Qed.

End Window.

(** ** The two locators *)

Section Locators.

Variable find_peaks : list Q -> Q -> nat -> option Q -> list nat.

(** The peak refinement of the sweep-time locator leaves the m/z inside the
    region, whatever [find_peaks] returns. *)
Lemma refine_with_peaks_In (region_mz region_intensity : list Q) (floor v m : Q) :
  In m region_mz ->
  In (refine_with_peaks find_peaks region_mz region_intensity floor v m).2 region_mz.
Proof.
  intros Hm. unfold refine_with_peaks.
  destruct (0 <? _)%nat; [|exact Hm].
  destruct (highest_peak _ _) as [best|]; [|exact Hm].
  destruct (getitem region_intensity best) as [v'|]; [|exact Hm].
  destruct (getitem region_mz best) as [m'|] eqn:E; [|exact Hm].
  simpl. eapply getitem_In. eassumption.
Qed.

Lemma true_peak_In (region_mz region_intensity : list Q) (p : peak) :
  true_peak find_peaks region_mz region_intensity = Ret (Some p) ->
  In (peak_mz p) region_mz.
Proof.
  unfold true_peak. destruct (3 <? _)%nat; [|discriminate].
  intros H. apply bind_Ret in H. destruct H as [top [_ H]].
  destruct (0 <? _)%nat; [|discriminate].
  apply bind_Ret in H. destruct H as [best [_ H]].
  apply bind_Ret in H. destruct H as [m [Hm H]].
  apply bind_Ret in H. destruct H as [v [_ H]].
  inversion H; subst. simpl. eapply getitem_In. eassumption.
Qed.

Lemma find_true_peak_maximum_In (mz_array intensity_array : list Q) (t w : Q) (p : peak) :
  find_true_peak_maximum find_peaks mz_array intensity_array t w = Ret (Some p) ->
  in_window t w (peak_mz p).
Proof.
  unfold find_true_peak_maximum.
  destruct (negb _); [discriminate|]. intros H.
  apply bind_Ret in H. destruct H as [region_mz [Hmz H]].
  apply bind_Ret in H. destruct H as [region_intensity [_ H]].
  apply bind_Ret in H. destruct H as [found [Hf H]].
  apply (region_in_window _ _ _ _ _ Hmz).
  destruct found as [q|].
  - inversion H; subst. eapply true_peak_In. eassumption.
  - apply bind_Ret in H. destruct H as [k [_ H]].
    apply bind_Ret in H. destruct H as [m [Hm H]].
    apply bind_Ret in H. destruct H as [v [_ H]].
    inversion H; subst. simpl. eapply getitem_In. eassumption.
Qed.

Lemma detect_compound_in_spectrum_In (mz_array intensity_array : list Q)
    (cfg : compound_config) (d : detection) :
  detect_compound_in_spectrum find_peaks mz_array intensity_array cfg = Ret (Some d) ->
  in_window (cfg_target_mz cfg) (cfg_mz_tolerance cfg) (det_mz d).
Proof.
  unfold detect_compound_in_spectrum.
  destruct (negb _); [discriminate|]. intros H.
  apply bind_Ret in H. destruct H as [region_mz [Hmz H]].
  apply bind_Ret in H. destruct H as [region_intensity [_ H]].
  apply bind_Ret in H. destruct H as [k [_ H]].
  apply bind_Ret in H. destruct H as [v [_ H]].
  apply bind_Ret in H. destruct H as [m [Hm H]].
  destruct (Qlt_bool v _); [discriminate|].
  apply (region_in_window _ _ _ _ _ Hmz).
  apply getitem_In in Hm.
  destruct (3 <? _)%nat.
  - pose proof (refine_with_peaks_In region_mz region_intensity (min_intensity cfg) v m Hm) as Hr.
    destruct (refine_with_peaks _ _ _ _ _ _) as [v' m'].
    inversion H; subst. exact Hr.
  - inversion H; subst. exact Hm.
Qed.

(** C3 (window correctness).  Whatever the peak finder returns, a
    candidate that the plot-time locator [find_true_peak_maximum] or the
    sweep-time locator [detect_compound_in_spectrum] returns has its m/z in
    the closed interval [[t - w, t + w]]; and when no element of the m/z
    array lies in that interval, each locator returns [None]. *)
Theorem locators_window_correct (mz_array intensity_array : list Q) (t w : Q)
    (cfg : compound_config) :
  (forall p, find_true_peak_maximum find_peaks mz_array intensity_array t w = Ret (Some p) ->
             t - w <= peak_mz p /\ peak_mz p <= t + w) /\
  (forall d, detect_compound_in_spectrum find_peaks mz_array intensity_array cfg = Ret (Some d) ->
             cfg_target_mz cfg - cfg_mz_tolerance cfg <= det_mz d /\
             det_mz d <= cfg_target_mz cfg + cfg_mz_tolerance cfg) /\
  ((forall m, In m mz_array -> ~ (t - w <= m /\ m <= t + w)) ->
   find_true_peak_maximum find_peaks mz_array intensity_array t w = Ret None) /\
  ((forall m, In m mz_array ->
      ~ (cfg_target_mz cfg - cfg_mz_tolerance cfg <= m /\
         m <= cfg_target_mz cfg + cfg_mz_tolerance cfg)) ->
   detect_compound_in_spectrum find_peaks mz_array intensity_array cfg = Ret None).
Proof.
  repeat split.
  - apply (find_true_peak_maximum_In _ _ _ _ _ H).
  - apply (find_true_peak_maximum_In _ _ _ _ _ H).
  - apply (detect_compound_in_spectrum_In _ _ _ _ H).
  - apply (detect_compound_in_spectrum_In _ _ _ _ H).
  - intros Hout. unfold find_true_peak_maximum.
    rewrite (window_mask_none _ _ _ Hout). reflexivity.
  - intros Hout. unfold detect_compound_in_spectrum.
    rewrite (window_mask_none _ _ _ Hout). reflexivity.
Qed.

(** From here on the peak finder is assumed to return indices of its
    argument, as [scipy.signal.find_peaks] does. *)
Hypothesis find_peaks_in_range :
  forall x height distance prominence,
    Forall (fun k => (k < length x)%nat) (find_peaks x height distance prominence).

Lemma highest_peak_Ret (region_intensity : list Q) (peak_indices : list nat) :
  Forall (fun k => (k < length region_intensity)%nat) peak_indices ->
  peak_indices <> [] ->
  exists best, highest_peak region_intensity peak_indices = Ret best /\
               (best < length region_intensity)%nat.
Proof.
  intros Hr Hne. unfold highest_peak.
  destruct (take_Ret _ _ Hr) as [vs [-> Hlen]]. simpl.
  assert (Hvs : vs <> []).
  { destruct vs; [|discriminate]. destruct peak_indices; [congruence | discriminate]. }
  destruct (argmax_spec vs Hvs) as [k [v [-> [Hk _]]]]. simpl.
  apply lookup_lt_Some in Hk. rewrite Hlen in Hk.
  destruct (getitem_lt peak_indices k Hk) as [best Hbest].
  exists best. split; [exact Hbest|].
  apply getitem_In in Hbest.
  rewrite List.Forall_forall in Hr. auto.
Qed.

Lemma length_pos_nonempty {A} (l : list A) : (0 <? length l)%nat = true -> l <> [].
Proof. destruct l; [discriminate | congruence]. Qed.

(** On a non-empty region the block of the constrained search does not
    raise, and a candidate it returns is marked corrected. *)
Lemma true_peak_Ret (region_mz region_intensity : list Q) :
  length region_mz = length region_intensity ->
  exists r, true_peak find_peaks region_mz region_intensity = Ret r /\
            (((length region_intensity <= 3)%nat \/
              (forall top, amax region_intensity = Ret top ->
                 find_peaks region_intensity (top * 0.1) 3%nat (Some (top * 0.05)) = [])) ->
             r = None).
Proof.
  intros Hlen. unfold true_peak.
  destruct (3 <? length region_intensity)%nat eqn:E3.
  - apply Nat.ltb_lt in E3.
    destruct (amax_Ret region_intensity) as [top Htop].
    { destruct region_intensity; [simpl in E3; lia | discriminate]. }
    rewrite Htop. simpl.
    destruct (0 <? _)%nat eqn:E0.
    + destruct (highest_peak_Ret region_intensity _
                  (find_peaks_in_range region_intensity (top * 0.1) 3%nat (Some (top * 0.05)))
                  (length_pos_nonempty _ E0)) as [best [-> Hbest]].
      simpl.
      destruct (getitem_lt region_mz best) as [m ->]; [lia|].
      destruct (getitem_lt region_intensity best Hbest) as [v ->].
      simpl. eexists. split; [reflexivity|].
      intros [Hle | Hnone]; [lia|].
      rewrite (Hnone top eq_refl) in E0. discriminate.
    + eexists. split; reflexivity.
  - eexists. split; reflexivity.
Qed.

(** C4 (fallback totality).  When the two arrays are parallel and some m/z
    value lies in the tolerance window, [find_true_peak_maximum] returns a
    candidate.  When the window has three samples or fewer, or the
    constrained search finds no maximum, the candidate is the greatest
    intensity of the window with its m/z, marked uncorrected. *)
Theorem locate_fallback_total (mz_array intensity_array : list Q) (t w : Q) :
  length mz_array = length intensity_array ->
  (exists m, In m mz_array /\ t - w <= m /\ m <= t + w) ->
  exists region_mz region_intensity p,
    compress mz_array (window_mask mz_array t w) = Ret region_mz /\
    compress intensity_array (window_mask mz_array t w) = Ret region_intensity /\
    find_true_peak_maximum find_peaks mz_array intensity_array t w = Ret (Some p) /\
    (((length region_intensity <= 3)%nat \/
      (forall top, amax region_intensity = Ret top ->
         find_peaks region_intensity (top * 0.1) 3%nat (Some (top * 0.05)) = [])) ->
     corrected p = false /\
     (exists k, region_mz !! k = Some (peak_mz p) /\
                region_intensity !! k = Some (peak_intensity p)) /\
     (forall v, In v region_intensity -> v <= peak_intensity p)).
Proof.
  intros Hlen [m [Hin Hw]].
  pose proof (window_mask_some mz_array t w m Hin Hw) as Hany.
  destruct (compress_Ret mz_array (window_mask mz_array t w)) as [region_mz Hmz].
  { symmetry. apply window_mask_length. }
  destruct (compress_Ret intensity_array (window_mask mz_array t w)) as [region_intensity Hint].
  { rewrite window_mask_length. congruence. }
  pose proof (compress_same_length _ _ _ _ _ Hmz Hint) as Hreg.
  pose proof (compress_nonempty _ _ _ Hint Hany) as Hne.
  destruct (true_peak_Ret region_mz region_intensity Hreg) as [r [Hr Hfall]].
  destruct (argmax_spec region_intensity Hne) as [k [v [Hk [Hv Hmax]]]].
  assert (Hkm : exists mk, region_mz !! k = Some mk).
  { apply lookup_lt_is_Some. rewrite Hreg. eapply lookup_lt_Some. eassumption. }
  destruct Hkm as [mk Hmk].
  assert (Hsimple :
    (max_idx ← argmax region_intensity;
     m ← getitem region_mz max_idx;
     v ← getitem region_intensity max_idx;
     mret (Some {| peak_mz := m; peak_intensity := v; corrected := false |}))
    = Ret (Some {| peak_mz := mk; peak_intensity := v; corrected := false |})).
  { rewrite Hk. simpl.
    rewrite (proj2 (getitem_Ret region_mz k mk) Hmk). simpl.
    rewrite (proj2 (getitem_Ret region_intensity k v) Hv). reflexivity. }
  unfold find_true_peak_maximum. rewrite Hany. simpl.
  rewrite Hmz. simpl. rewrite Hint. simpl. rewrite Hr. simpl.
  destruct r as [p|].
  - exists region_mz, region_intensity, p. repeat split; try reflexivity;
      specialize (Hfall H); discriminate.
  - rewrite Hsimple.
    exists region_mz, region_intensity,
      {| peak_mz := mk; peak_intensity := v; corrected := false |}.
    split; [reflexivity|]. split; [reflexivity|]. split; [reflexivity|].
    intros _. simpl. split; [reflexivity|]. split; [eauto | exact Hmax].
Qed.

End Locators.

(** ** The reference store *)

Section ReferenceStore.

Lemma parse_xy_lines_length (lines : list (list (option Q))) (a b : list Q) :
  parse_xy_lines lines = Ret (a, b) -> length a = length b.
Proof.
  revert a b. induction lines as [|line lines IH]; intros a b H; simpl in H.
  - inversion H. reflexivity.
  - destruct line as [|[m|] [|[v|] [|]]]; try discriminate; eauto.
    apply bind_Ret in H. destruct H as [[ms vs] [Hrest H]].
    inversion H; subst. simpl. f_equal. eauto.
Qed.

Lemma parse_xy_string_length (lines : list (list (option Q))) :
  length (parse_xy_string lines).1 = length (parse_xy_string lines).2.
Proof.
  unfold parse_xy_string, try_except.
  destruct (parse_xy_lines lines) as [[a b]|] eqn:E; [|reflexivity].
  simpl. eapply parse_xy_lines_length. eassumption.
Qed.

Lemma load_reference_wf (self : ReferenceDataManager) (fd : formula_data) :
  wf_store self -> wf_store (load_reference self fd).
Proof.
  intros Hwf. unfold load_reference.
  destruct (fd_mf fd) as [[|c formula]|]; try exact Hwf.
  pose proof (parse_xy_string_length (fd_xy fd)) as Hlen.
  destruct (parse_xy_string (fd_xy fd)) as [mz_array intensity_array].
  simpl in Hlen.
  destruct (0 <? length mz_array)%nat eqn:E; [|exact Hwf].
  intros f r. simpl. rewrite lookup_insert.
  destruct (decide (String c formula = f)).
  - intros [= <-]. split; simpl; [exact Hlen|].
    apply length_pos_nonempty. exact E.
  - apply Hwf.
Qed.

(** Every reference [_load_all_references] stores is well formed. *)
Lemma load_all_references_wf (data : list formula_data) :
  wf_store (load_all_references data).
Proof.
  unfold load_all_references.
  assert (H0 : wf_store {| reference_data := ∅; compounds_config := [] |}).
  { intros f r. simpl. rewrite lookup_empty. discriminate. }
  revert H0. generalize {| reference_data := ∅; compounds_config := [] |}.
  induction data as [|fd data IH]; intros self Hwf; simpl; [exact Hwf|].
  apply IH. apply load_reference_wf. exact Hwf.
Qed.

(** A formula all of whose entries have no peak is not stored. *)
Lemma load_all_references_None (data : list formula_data) (formula : string) :
  (forall fd, In fd data -> fd_mf fd = Some formula ->
              (parse_xy_string (fd_xy fd)).1 = []) ->
  get_reference (load_all_references data) formula = None.
Proof.
  unfold load_all_references, get_reference.
  assert (H0 : reference_data {| reference_data := ∅; compounds_config := [] |}
                 !! formula = None) by apply lookup_empty.
  revert H0. generalize {| reference_data := ∅; compounds_config := [] |}.
  induction data as [|fd data IH]; intros self H0 Hall; simpl; [exact H0|].
  apply IH; [|intros fd' Hin; apply Hall; right; exact Hin].
  unfold load_reference.
  destruct (fd_mf fd) as [[|c f]|] eqn:Emf; try exact H0.
  destruct (parse_xy_string (fd_xy fd)) as [mz_array intensity_array] eqn:Exy.
  destruct (0 <? length mz_array)%nat eqn:E; [|exact H0].
  simpl. rewrite lookup_insert.
  destruct (decide (String c f = formula)) as [Heq|Hne]; [|exact H0].
  exfalso. subst formula.
  specialize (Hall fd (or_introl eq_refl) Emf). rewrite Exy in Hall. simpl in Hall.
  subst mz_array. discriminate.
Qed.

End ReferenceStore.

(** ** The pattern validator *)

Section Validator.

(** The threshold of the validator, by class. *)
Lemma min_intensity_threshold_class (cfg : compound_config) :
  min_intensity_threshold cfg = if high_threshold_class cfg then 2000 else 1000.
Proof.
  unfold min_intensity_threshold, high_threshold_class, is_topse, is_top, is_oleic.
  destruct (contains "TOPSe" _), (contains "C24H52PSe" _), (contains "TOP" _),
    (contains "Oleic" _), (contains "C18H35O2" _); reflexivity.
Qed.

(** With a positive target, the ppm test is a test on the absolute error. *)
Lemma ppm_error_lt (mz target_mz bound : Q) :
  0 < target_mz ->
  (ppm_error mz target_mz < bound <-> Qabs (mz - target_mz) * 1e6 < bound * target_mz).
Proof.
  intros Hpos. unfold ppm_error.
  assert (Hne : ~ target_mz == 0).
  { intros E. rewrite E in Hpos. exact (Qlt_irrefl 0 Hpos). }
  assert (E : Qabs (mz - target_mz) / target_mz * 1e6
              == Qabs (mz - target_mz) * 1e6 / target_mz) by (field; exact Hne).
  rewrite E. split.
  - intros H. apply (Qmult_lt_r _ _ target_mz Hpos) in H.
    rewrite Qmult_comm, Qmult_div_r in H by exact Hne. exact H.
  - intros H. apply (Qmult_lt_r _ _ target_mz Hpos).
    rewrite (Qmult_comm (_ / _)), Qmult_div_r by exact Hne. exact H.
Qed.

(** The loop records a match exactly when the first pair near the detected
    m/z is at 50% or more. *)
Lemma main_peak_loop_true (pairs : list (Q * Q)) (main_mz main_intensity mz_shift tol : Q) :
  (main_peak_loop pairs main_mz main_intensity mz_shift tol).1 = true <->
  exists i p, pairs !! i = Some p /\ near_detected main_mz mz_shift tol p /\ 0.5 <= p.2 /\
    forall j q, (j < i)%nat -> pairs !! j = Some q -> ~ near_detected main_mz mz_shift tol q.
Proof.
  induction pairs as [|[m n] pairs IH]; cbn [main_peak_loop].
  - split; [discriminate|]. intros [i [p [H _]]]. destruct i; discriminate.
  - destruct (Qle_bool 0.01 n) eqn:E1;
      [destruct (Qle_bool (Qabs (main_mz - (m + mz_shift))) tol) eqn:E2|].
    + assert (Hnear : near_detected main_mz mz_shift tol (m, n)).
      { split; cbn [fst snd]; apply Qle_bool_iff; assumption. }
      destruct (Qle_bool 0.5 n) eqn:E3; cbn [fst].
      * split; [intros _|reflexivity].
        exists 0%nat, (m, n). split; [reflexivity|]. split; [exact Hnear|].
        split; [apply Qle_bool_iff; exact E3|]. intros j q Hj. lia.
      * split; [discriminate|]. intros [i [p [Hi [_ [H5 Hfirst]]]]].
        destruct i as [|i].
        -- inversion Hi; subst. cbn [snd] in H5. apply Qle_bool_iff in H5. congruence.
        -- exfalso. apply (Hfirst 0%nat (m, n)); [lia | reflexivity | exact Hnear].
    + assert (Hfar : ~ near_detected main_mz mz_shift tol (m, n)).
      { intros [_ H]. cbn [fst snd] in H. apply Qle_bool_iff in H. congruence. }
      rewrite IH. split.
      * intros [i [p [Hi [Hn [H5 Hfirst]]]]]. exists (S i), p.
        repeat split; try assumption; try apply Hn.
        intros [|j] q Hj Hq; [inversion Hq; subst; exact Hfar|].
        apply (Hfirst j q); [lia | exact Hq].
      * intros [[|i] [p [Hi [Hn [H5 Hfirst]]]]].
        -- inversion Hi; subst. contradiction.
        -- exists i, p. repeat split; try assumption; try apply Hn.
           intros j q Hj Hq. apply (Hfirst (S j) q); [lia | exact Hq].
    + assert (Hfar : ~ near_detected main_mz mz_shift tol (m, n)).
      { intros [H _]. cbn [fst snd] in H. apply Qle_bool_iff in H. congruence. }
      rewrite IH. split.
      * intros [i [p [Hi [Hn [H5 Hfirst]]]]]. exists (S i), p.
        repeat split; try assumption; try apply Hn.
        intros [|j] q Hj Hq; [inversion Hq; subst; exact Hfar|].
        apply (Hfirst j q); [lia | exact Hq].
      * intros [[|i] [p [Hi [Hn [H5 Hfirst]]]]].
        -- inversion Hi; subst. contradiction.
        -- exists i, p. repeat split; try assumption; try apply Hn.
           intros j q Hj Hq. apply (Hfirst (S j) q); [lia | exact Hq].
Qed.

(** On a well-formed reference the validator returns, and its outcome is
    the expected record. *)
Lemma validate_against_reference_Ret (self : ReferenceDataManager) (d : detection)
    (cfg : compound_config) (r : reference) :
  get_reference self (cfg_formula cfg) = Some r ->
  wf_reference r ->
  exists top main_idx theoretical_main_mz v,
    amax (ref_intensity r) = Ret top /\
    argmax (map (fun x => x / top) (ref_intensity r)) = Ret main_idx /\
    ref_mz r !! main_idx = Some theoretical_main_mz /\
    validate_against_reference self d cfg = Ret (is_valid v, Some v) /\
    match_count v = length (matches v) /\
    is_valid v = Qle_bool (min_intensity_threshold cfg) (det_intensity d)
                 && Qlt_bool (ppm_error (det_mz d) (cfg_target_mz cfg)) 300 /\
    main_peak_match v =
      (main_peak_loop (zip (ref_mz r) (map (fun x => x / top) (ref_intensity r)))
         (det_mz d) (det_intensity d) (det_mz d - theoretical_main_mz)
         (cfg_mz_tolerance_validation cfg)).1 /\
    validation_score v = (if main_peak_match v then 1 else 0.5) /\
    mass_error_ppm v = ppm_error (det_mz d) (cfg_target_mz cfg) /\
    mass_accuracy_ok v = Qlt_bool (mass_error_ppm v) 300.
Proof.
  intros Hget [Hlen Hne]. unfold validate_against_reference. rewrite Hget.
  assert (Hne' : ref_intensity r <> []).
  { intros E. rewrite E in Hlen. destruct (ref_mz r); [congruence | discriminate]. }
  destruct (amax_Ret _ Hne') as [top Htop]. rewrite Htop. simpl.
  destruct (argmax_spec (map (fun x => x / top) (ref_intensity r))) as [k [nv [Hk [Hnv _]]]].
  { destruct (ref_intensity r); [congruence | discriminate]. }
  rewrite Hk. simpl.
  assert (Hkm : exists tm, ref_mz r !! k = Some tm).
  { apply lookup_lt_is_Some. rewrite Hlen. apply lookup_lt_Some in Hnv.
    rewrite length_map in Hnv. exact Hnv. }
  destruct Hkm as [tm Htm].
  rewrite (proj2 (getitem_Ret _ _ _) Htm). simpl.
  destruct (main_peak_loop _ _ _ _ _) as [mpm ms] eqn:Eloop.
  exists top, k, tm.
  match goal with |- context [Ret (_, Some ?x)] => exists x end.
  split; [reflexivity|]. split; [exact Hk|]. split; [exact Htm|].
  split; [reflexivity|]. cbn -[Qle_bool Qlt_bool ppm_error main_peak_loop].
  rewrite Eloop. repeat split.
Qed.

End Validator.

(** ** The verdict and the score of the validator *)

Section ValidatorClaims.

Variable data : list formula_data.

(** C1 (acceptance rule).  For a compound whose reference pattern is
    loaded and whose target m/z is positive, the validator returns, and
    its verdict is valid exactly when the candidate's intensity is at least
    the class threshold (2000 for the high-threshold class, found by name
    and formula matching, 1000 otherwise) and the mass error in ppm
    relative to the target m/z is strictly below 300.  In particular an
    intensity equal to the threshold is accepted when the ppm error is
    below 300, and with a sufficient intensity the verdict is decided by
    which side of 300 ppm the error lies. *)
Theorem validate_valid_iff (d : detection) (cfg : compound_config) (r : reference) :
  get_reference (load_all_references data) (cfg_formula cfg) = Some r ->
  0 < cfg_target_mz cfg ->
  let threshold : Q := if high_threshold_class cfg then 2000 else 1000 in
  let ppm := Qabs (det_mz d - cfg_target_mz cfg) / cfg_target_mz cfg * 1e6 in
  exists v,
    validate_against_reference (load_all_references data) d cfg = Ret (is_valid v, Some v) /\
    (is_valid v = true <-> threshold <= det_intensity d /\ ppm < 300) /\
    (det_intensity d == threshold -> ppm < 300 -> is_valid v = true) /\
    (threshold <= det_intensity d -> 300 <= ppm -> is_valid v = false) /\
    (mass_accuracy_ok v = true <->
     Qabs (det_mz d - cfg_target_mz cfg) * 1e6 < 300 * cfg_target_mz cfg).
Proof.
  intros Hget Hpos threshold ppm.
  destruct (validate_against_reference_Ret _ d cfg r Hget
              (load_all_references_wf data _ _ Hget))
    as [top [k [tm [v [_ [_ [_ [Hv [_ [Hvalid [_ [_ [Hppm Hok]]]]]]]]]]]]].
  exists v. split; [exact Hv|].
  rewrite min_intensity_threshold_class in Hvalid. fold threshold in Hvalid.
  change (ppm_error (det_mz d) (cfg_target_mz cfg)) with ppm in Hvalid.
  assert (Hiff : is_valid v = true <-> threshold <= det_intensity d /\ ppm < 300).
  { rewrite Hvalid, andb_true_iff, Qle_bool_iff, Qlt_bool_iff. tauto. }
  split; [exact Hiff|]. split; [|split].
  - intros Heq Hlt. apply Hiff. split; [|exact Hlt].
    rewrite Heq. apply Qle_refl.
  - intros Hle Hge. destruct (is_valid v) eqn:E; [|reflexivity].
    exfalso. destruct (proj1 Hiff eq_refl) as [_ Hlt].
    exact (Qlt_not_le _ _ Hlt Hge).
  - rewrite Hok, Hppm, Qlt_bool_iff. apply ppm_error_lt. exact Hpos.
Qed.

(** C6, as the code has it (two-level confidence score).  For a compound
    whose reference pattern is loaded the validator returns; the score is
    1 or 0.5; and it is 1 exactly when the first reference peak, in
    pattern order, that has a normalised intensity of at least 1% and a
    shifted m/z within the validation tolerance of the candidate's m/z
    also has a normalised intensity of at least 50%.  The shift is the
    candidate's m/z minus the m/z of the reference peak of greatest
    normalised intensity. *)
Theorem validation_score_first_near_peak (d : detection) (cfg : compound_config)
    (r : reference) :
  get_reference (load_all_references data) (cfg_formula cfg) = Some r ->
  exists top main_idx theoretical_main_mz v,
    amax (ref_intensity r) = Ret top /\
    argmax (map (fun x => x / top) (ref_intensity r)) = Ret main_idx /\
    ref_mz r !! main_idx = Some theoretical_main_mz /\
    validate_against_reference (load_all_references data) d cfg = Ret (is_valid v, Some v) /\
    (validation_score v = 1 \/ validation_score v = 0.5) /\
    (validation_score v == 1 <-> main_peak_match v = true) /\
    (main_peak_match v = true <->
     let pairs := zip (ref_mz r) (map (fun x => x / top) (ref_intensity r)) in
     let near := near_detected (det_mz d) (det_mz d - theoretical_main_mz)
                   (cfg_mz_tolerance_validation cfg) in
     exists i p, pairs !! i = Some p /\ near p /\ 0.5 <= p.2 /\
       forall j q, (j < i)%nat -> pairs !! j = Some q -> ~ near q).
Proof.
  intros Hget.
  destruct (validate_against_reference_Ret _ d cfg r Hget
              (load_all_references_wf data _ _ Hget))
    as [top [k [tm [v [Htop [Hk [Htm [Hv [_ [_ [Hmatch [Hscore _]]]]]]]]]]]].
  exists top, k, tm, v. repeat (split; [assumption|]).
  split; [|split].
  - rewrite Hscore. destruct (main_peak_match v); [left | right]; reflexivity.
  - rewrite Hscore. destruct (main_peak_match v); split; try reflexivity; discriminate.
  - rewrite Hmatch. apply main_peak_loop_true.
Qed.

(** C8 (no reference pattern).  When every entry of the reference file for
    the compound's formula has no peak (or there is no entry at all), the
    validator returns invalid, with an empty outcome, whatever the
    candidate. *)
Theorem validate_without_reference (d : detection) (cfg : compound_config) :
  (forall fd, In fd data -> fd_mf fd = Some (cfg_formula cfg) ->
              (parse_xy_string (fd_xy fd)).1 = []) ->
  validate_against_reference (load_all_references data) d cfg = Ret (false, None).
Proof.
  intros Hnone. unfold validate_against_reference.
  rewrite (load_all_references_None data _ Hnone). reflexivity.
Qed.

End ValidatorClaims.

(** ** The scan sweep *)

Section Sweep.

Variable cd : compound_detector.

Lemma max_from_spec {A} (key : A -> Q) (l : list A) (pre : list A) (best : A) (post : list A) :
  (forall x, In x pre -> key x < key best) ->
  (forall x, In x post -> key x <= key best) ->
  exists before after,
    pre ++ best :: post ++ l = before ++ max_from key best l :: after /\
    (forall x, In x before -> key x < key (max_from key best l)) /\
    (forall x, In x after -> key x <= key (max_from key best l)).
Proof.
  revert pre best post. induction l as [|y l IH]; intros pre best post Hpre Hpost; simpl.
  - exists pre, post. rewrite app_nil_r. auto.
  - destruct (Qlt_bool (key best) (key y)) eqn:E.
    + apply Qlt_bool_iff in E.
      destruct (IH (pre ++ best :: post) y []) as [before [after [Heq [Hb Ha]]]].
      * intros x Hx. apply in_app_or in Hx. destruct Hx as [Hx|[<-|Hx]].
        -- apply Qlt_trans with (key best); auto.
        -- exact E.
        -- apply Qle_lt_trans with (key best); auto.
      * intros x [].
      * exists before, after. split; [|auto].
        rewrite <- Heq. rewrite <- !app_assoc. reflexivity.
    + apply Qlt_bool_false in E.
      destruct (IH pre best (post ++ [y])) as [before [after [Heq [Hb Ha]]]].
      * exact Hpre.
      * intros x Hx. apply in_app_or in Hx. destruct Hx as [Hx|[<-|[]]]; auto.
      * exists before, after. split; [|auto].
        rewrite <- Heq. rewrite <- !app_assoc. reflexivity.
Qed.

(** The builtin [max] with a key: an element of greatest key, and the
    first of them. *)
Lemma max_key_spec {A} (key : A -> Q) (l : list A) :
  l <> [] ->
  exists best before after,
    max_key key l = Ret best /\
    l = before ++ best :: after /\
    (forall x, In x before -> key x < key best) /\
    (forall x, In x l -> key x <= key best).
Proof.
  destruct l as [|x l]; [congruence|]. intros _.
  destruct (max_from_spec key l [] x []) as [before [after [Heq [Hb Ha]]]].
  - intros y [].
  - intros y [].
  - simpl in Heq. exists (max_from key x l), before, after.
    split; [reflexivity|]. split; [exact Heq|]. split; [exact Hb|].
    rewrite Heq. intros y Hy. apply in_app_or in Hy.
    destruct Hy as [Hy|[<-|Hy]]; [apply Qlt_le_weak; auto | apply Qle_refl | auto].
Qed.

(** The loop computes the relation. *)
Lemma sweep_accepted_of (cfg : compound_config) (ms1_spectra : list ms1_spectrum)
    (l : list validated_detection) :
  accepted_of cd cfg ms1_spectra l ->
  forall acc n, exists n', sweep cd ms1_spectra cfg acc n = Ret (acc ++ l, n').
Proof.
  induction 1 as [|s rest l Hd _ IH|s rest l d v Hd Hv _ IH|s rest l d v Hd Hv _ IH];
    intros acc n; simpl.
  - exists n. rewrite app_nil_r. reflexivity.
  - rewrite Hd. simpl. apply IH.
  - rewrite Hd. simpl. rewrite Hv. simpl. apply IH.
  - rewrite Hd. simpl. rewrite Hv. simpl.
    destruct (IH (acc ++ [{| vd_detection := d; vd_scan := ms_scan s;
                             vd_rt := ms_rt s; vd_validation := v |}]) (S n))
      as [n' Hn'].
    exists n'. rewrite Hn'. rewrite <- app_assoc. reflexivity.
Qed.

Lemma sweep_inv (cfg : compound_config) (ms1_spectra : list ms1_spectrum) :
  forall acc n all n',
    sweep cd ms1_spectra cfg acc n = Ret (all, n') ->
    exists l, accepted_of cd cfg ms1_spectra l /\ all = acc ++ l.
Proof.
  induction ms1_spectra as [|s rest IH]; intros acc n all n' H; simpl in H.
  - inversion H; subst. exists []. split; [constructor | symmetry; apply app_nil_r].
  - apply bind_Ret in H. destruct H as [d [Hd H]].
    destruct d as [d|].
    + apply bind_Ret in H. destruct H as [[valid v] [Hv H]].
      destruct valid.
      * destruct (IH _ _ _ _ H) as [l [Hl ->]].
        eexists. split; [eapply accepted_valid; eassumption|].
        rewrite <- app_assoc. reflexivity.
      * destruct (IH _ _ _ _ H) as [l [Hl ->]].
        exists l. split; [eapply accepted_rejected; eassumption | reflexivity].
    + destruct (IH _ _ _ _ H) as [l [Hl ->]].
      exists l. split; [eapply accepted_absent; eassumption | reflexivity].
Qed.

(** When neither method raises on the spectra, the relation has a value. *)
Lemma accepted_of_total (cfg : compound_config) (ms1_spectra : list ms1_spectrum) :
  Forall (fun s =>
    exists r, detect cd (ms_mz_array s) (ms_intensity_array s) cfg = Ret r /\
      forall d, r = Some d -> exists b v, validate cd d cfg = Ret (b, v)) ms1_spectra ->
  exists l, accepted_of cd cfg ms1_spectra l.
Proof.
  induction 1 as [|s rest [r [Hd Hv]] _ [l IH]].
  - exists []. constructor.
  - destruct r as [d|].
    + destruct (Hv d eq_refl) as [[|] [v Hdv]].
      * eexists. eapply accepted_valid; eassumption.
      * exists l. eapply accepted_rejected; eassumption.
    + exists l. eapply accepted_absent; eassumption.
Qed.

(** Every accepted entry comes from a spectrum of the sweep on which the
    locator returned its candidate and the validator returned valid. *)
Lemma accepted_of_valid (cfg : compound_config) (ms1_spectra : list ms1_spectrum)
    (l : list validated_detection) :
  accepted_of cd cfg ms1_spectra l ->
  forall x, In x l ->
    exists s, In s ms1_spectra /\
      detect cd (ms_mz_array s) (ms_intensity_array s) cfg = Ret (Some (vd_detection x)) /\
      validate cd (vd_detection x) cfg = Ret (true, vd_validation x) /\
      vd_scan x = ms_scan s /\ vd_rt x = ms_rt s.
Proof.
  induction 1 as [|s rest l Hd _ IH|s rest l d v Hd Hv _ IH|s rest l d v Hd Hv _ IH];
    intros x Hx.
  - destruct Hx.
  - destruct (IH x Hx) as [s' [Hin H']]. exists s'. split; [right; exact Hin | exact H'].
  - destruct (IH x Hx) as [s' [Hin H']]. exists s'. split; [right; exact Hin | exact H'].
  - destruct Hx as [<-|Hx].
    + exists s. simpl. repeat split; try assumption. left. reflexivity.
    + destruct (IH x Hx) as [s' [Hin H']]. exists s'. split; [right; exact Hin | exact H'].
Qed.

(** The relation is a function of the spectra. *)
Lemma accepted_of_functional (cfg : compound_config) (ms1_spectra : list ms1_spectrum)
    (l l' : list validated_detection) :
  accepted_of cd cfg ms1_spectra l -> accepted_of cd cfg ms1_spectra l' -> l = l'.
Proof.
  intros H. revert l'.
  induction H as [|s rest l Hd _ IH|s rest l d v Hd Hv _ IH|s rest l d v Hd Hv _ IH];
    intros l' H'; inversion H'; subst; try reflexivity;
    try (rewrite Hd in *; try discriminate);
    repeat match goal with
    | H1 : Ret (Some _) = Ret (Some _) |- _ => inversion H1; subst; clear H1
    | H1 : validate cd ?d cfg = _, H2 : validate cd ?d cfg = _ |- _ =>
        rewrite H1 in H2; inversion H2; subst; clear H2
    end;
    try discriminate; try (f_equal; auto); auto.
Qed.

End Sweep.

(** ** The sweep-time locator on parallel arrays *)

Section SweepLocator.

Variable find_peaks : list Q -> Q -> nat -> option Q -> list nat.

(** On parallel arrays with a non-empty window, the locator reaches its
    floor test with the greatest intensity of the window. *)
Lemma detect_compound_in_spectrum_max (mz_array intensity_array : list Q)
    (cfg : compound_config) :
  length mz_array = length intensity_array ->
  let mask := window_mask mz_array (cfg_target_mz cfg) (cfg_mz_tolerance cfg) in
  any mask = true ->
  exists region_mz region_intensity max_intensity max_mz,
    compress mz_array mask = Ret region_mz /\
    compress intensity_array mask = Ret region_intensity /\
    In max_intensity region_intensity /\
    (forall v, In v region_intensity -> v <= max_intensity) /\
    detect_compound_in_spectrum find_peaks mz_array intensity_array cfg =
      if Qlt_bool max_intensity (min_intensity cfg) then Ret None
      else
        let '(max_intensity, max_mz) :=
          if (3 <? length region_intensity)%nat
          then refine_with_peaks find_peaks region_mz region_intensity
                 (min_intensity cfg) max_intensity max_mz
          else (max_intensity, max_mz) in
        Ret (Some {| det_mz := max_mz;
                     det_intensity := max_intensity;
                     det_mz_error_ppm := ppm_error max_mz (cfg_target_mz cfg);
                     det_region_peaks := length region_intensity;
                     det_target_mz := cfg_target_mz cfg |}).
Proof.
  intros Hlen mask Hany.
  destruct (compress_Ret mz_array mask) as [region_mz Hmz].
  { symmetry. apply window_mask_length. }
  destruct (compress_Ret intensity_array mask) as [region_intensity Hint].
  { unfold mask. rewrite window_mask_length. congruence. }
  pose proof (compress_same_length _ _ _ _ _ Hmz Hint) as Hreg.
  pose proof (compress_nonempty _ _ _ Hint Hany) as Hne.
  destruct (argmax_spec region_intensity Hne) as [k [v [Hk [Hv Hmax]]]].
  assert (Hkm : exists mk, region_mz !! k = Some mk).
  { apply lookup_lt_is_Some. rewrite Hreg. eapply lookup_lt_Some. eassumption. }
  destruct Hkm as [mk Hmk].
  exists region_mz, region_intensity, v, mk.
  split; [exact Hmz|]. split; [exact Hint|].
  split; [eapply lookup_In; eassumption|]. split; [exact Hmax|].
  unfold detect_compound_in_spectrum. fold mask. rewrite Hany. cbn [negb].
  rewrite Hmz. cbn [mbind py_bind]. rewrite Hint. cbn [mbind py_bind].
  rewrite Hk. cbn [mbind py_bind].
  rewrite (proj2 (getitem_Ret region_intensity k v) Hv). cbn [mbind py_bind].
  rewrite (proj2 (getitem_Ret region_mz k mk) Hmk). cbn [mbind py_bind].
  reflexivity.
Qed.

(** On parallel arrays the locator does not raise. *)
Lemma detect_compound_in_spectrum_Ret (mz_array intensity_array : list Q)
    (cfg : compound_config) :
  length mz_array = length intensity_array ->
  exists r, detect_compound_in_spectrum find_peaks mz_array intensity_array cfg = Ret r.
Proof.
  intros Hlen.
  destruct (any (window_mask mz_array (cfg_target_mz cfg) (cfg_mz_tolerance cfg))) eqn:Hany.
  - destruct (detect_compound_in_spectrum_max _ _ cfg Hlen Hany)
      as [rm [ri [v [m [_ [_ [_ [_ ->]]]]]]]].
    destruct (Qlt_bool v _); [eauto|].
    destruct (if (3 <? length ri)%nat then _ else _) as [v' m']. eauto.
  - unfold detect_compound_in_spectrum. rewrite Hany. eauto.
Qed.

End SweepLocator.

(** The validator does not raise on a store of well-formed references. *)
Lemma validate_against_reference_total (self : ReferenceDataManager) (d : detection)
    (cfg : compound_config) :
  wf_store self ->
  exists b v, validate_against_reference self d cfg = Ret (b, v).
Proof.
  intros Hwf. destruct (get_reference self (cfg_formula cfg)) as [r|] eqn:Hget.
  - destruct (validate_against_reference_Ret self d cfg r Hget (Hwf _ _ Hget))
      as [_ [_ [_ [v [_ [_ [_ [Hv _]]]]]]]].
    eauto.
  - unfold validate_against_reference. rewrite Hget. eauto.
Qed.

(** A valid verdict comes with a full outcome that records it. *)
Lemma validate_against_reference_valid (self : ReferenceDataManager) (d : detection)
    (cfg : compound_config) (validation : option validation_result) :
  validate_against_reference self d cfg = Ret (true, validation) ->
  exists v, validation = Some v /\ is_valid v = true /\
            main_peak_intensity v = det_intensity d.
Proof.
  unfold validate_against_reference.
  destruct (get_reference _ _) as [r|]; [|discriminate].
  intros H.
  apply bind_Ret in H. destruct H as [top [_ H]].
  apply bind_Ret in H. destruct H as [k [_ H]].
  apply bind_Ret in H. destruct H as [tm [_ H]].
  destruct (main_peak_loop _ _ _ _ _) as [mpm ms].
  injection H as Hb Hv. subst validation. eexists. split; [reflexivity|].
  cbn [is_valid main_peak_intensity]. split; [exact Hb | reflexivity].
Qed.

(** ** The result of a sample *)

Section SampleResults.

Variable py_int : string -> option Z.
Variable isdigit : string -> bool.
Variable cd : compound_detector.

Lemma select_optimal_Some (l : list validated_detection) (res : compound_result) :
  select_optimal l = Ret (Some res) ->
  all_detections res = l /\ detection_count res = length l /\
  In (optimal_detection res) l.
Proof.
  unfold select_optimal. destruct l as [|x l]; [discriminate|].
  destruct (max_key_spec vd_intensity (x :: l)) as [best [before [after [Hmax [Heq _]]]]];
    [discriminate|].
  rewrite Hmax. cbn [mbind py_bind mret py_ret]. intros [= <-].
  cbn [all_detections detection_count optimal_detection].
  repeat split. rewrite Heq. apply in_or_app. right. left. reflexivity.
Qed.

Lemma analyze_compound_inv (ms1_spectra : list ms1_spectrum) (cfg : compound_config)
    (r : option compound_result) :
  analyze_compound cd ms1_spectra cfg = Ret r ->
  exists l, accepted_of cd cfg ms1_spectra l /\ select_optimal l = Ret r.
Proof.
  unfold analyze_compound. intros H.
  apply bind_Ret in H. destruct H as [[all n] [Hs H]].
  destruct (sweep_inv cd cfg ms1_spectra _ _ _ _ Hs) as [l [Hl ->]].
  exists l. split; [exact Hl | exact H].
Qed.

Lemma analyze_compounds_inv (ms1_spectra : list ms1_spectrum)
    (configs : list (string * compound_config)) :
  forall results res formula r,
    analyze_compounds cd ms1_spectra configs results = Ret res ->
    res !! formula = Some r ->
    results !! formula = Some r \/
    exists cfg, In (formula, cfg) configs /\ analyze_compound cd ms1_spectra cfg = Ret r.
Proof.
  induction configs as [|[f cfg] configs IH]; intros results res formula r H Hr;
    cbn [analyze_compounds] in H.
  - inversion H; subst. left. exact Hr.
  - apply bind_Ret in H. destruct H as [r0 [H0 H]].
    destruct (IH _ _ _ _ H Hr) as [Hin | [cfg' [Hin Hc]]].
    + rewrite lookup_insert in Hin. destruct (decide (f = formula)) as [->|Hne].
      * inversion Hin; subst. right. exists cfg. split; [left; reflexivity | exact H0].
      * left. exact Hin.
    + right. exists cfg'. split; [right; exact Hin | exact Hc].
Qed.

(** An entry of the sample's result is the outcome of the sweep of one of
    the configured compounds over the collected spectra. *)
Lemma analyze_sample_for_compounds_inv (run : list spectrum)
    (configs : list (string * compound_config)) (formula : string)
    (r : option compound_result) :
  analyze_sample_for_compounds py_int isdigit cd run configs !! formula = Some r ->
  exists ms1_spectra cfg,
    collect_ms1 py_int isdigit run = Ret ms1_spectra /\
    In (formula, cfg) configs /\
    analyze_compound cd ms1_spectra cfg = Ret r.
Proof.
  unfold analyze_sample_for_compounds, try_except.
  destruct (collect_ms1 py_int isdigit run) as [ms1|]; cbn [mbind py_bind];
    [|rewrite lookup_empty; discriminate].
  destruct (analyze_compounds cd ms1 configs ∅) as [res|] eqn:E;
    [|rewrite lookup_empty; discriminate].
  intros Hr. destruct (analyze_compounds_inv _ _ _ _ _ _ E Hr) as [H|[cfg [Hin Hc]]].
  - rewrite lookup_empty in H. discriminate.
  - exists ms1, cfg. auto.
Qed.

(** A spectrum whose scan number is not positive is not collected. *)
Lemma collect_ms1_skip (before after : list spectrum) (s : spectrum) (n : Z) :
  extract_scan_number py_int isdigit (sp_ID s) = Ret n -> (n <= 0)%Z ->
  collect_ms1 py_int isdigit (before ++ s :: after) =
  collect_ms1 py_int isdigit (before ++ after).
Proof.
  intros Hn Hle. induction before as [|x before IH]; cbn [app collect_ms1].
  - rewrite Hn. cbn [mbind py_bind].
    destruct (sp_ms_level s =? 1)%Z; [|reflexivity].
    destruct (0 <? n)%Z eqn:E; [|reflexivity].
    apply Z.ltb_lt in E. lia.
  - rewrite IH. reflexivity.
Qed.

(** C10 (spectra without a scan number).  An identifier that is a string
    without ['scan='] and not made of digits has scan number 0; and a
    spectrum whose scan number is 0 is left out of the collected spectra,
    so the result of the sample is what it is without that spectrum,
    whatever its arrays hold. *)
Theorem scan_number_zero_excluded (before after : list spectrum) (s : spectrum)
    (configs : list (string * compound_config)) :
  (forall str, contains "scan=" str = false -> isdigit str = false ->
     extract_scan_number py_int isdigit (IdStr str) = Ret 0%Z) /\
  (extract_scan_number py_int isdigit (sp_ID s) = Ret 0%Z ->
   collect_ms1 py_int isdigit (before ++ s :: after) =
     collect_ms1 py_int isdigit (before ++ after) /\
   analyze_sample_for_compounds py_int isdigit cd (before ++ s :: after) configs =
     analyze_sample_for_compounds py_int isdigit cd (before ++ after) configs).
Proof.
  split.
  - intros str H1 H2. cbn [extract_scan_number]. rewrite H1, H2. reflexivity.
  - intros H0.
    assert (E : collect_ms1 py_int isdigit (before ++ s :: after) =
                collect_ms1 py_int isdigit (before ++ after)).
    { apply (collect_ms1_skip before after s 0%Z H0). lia. }
    split; [exact E|].
    unfold analyze_sample_for_compounds. rewrite E. reflexivity.
Qed.

End SampleResults.

Section SweepClaims.

Variable find_peaks : list Q -> Q -> nat -> option Q -> list nat.

(** C2 (optimal selection).  With the references loaded from the reference
    file and spectra whose two arrays are parallel, the sweep for one
    compound does not raise.  When no candidate is accepted the result is
    [None]; otherwise the result holds the accepted candidates in scan
    order, their number as detection count, and as optimal detection an
    accepted candidate whose intensity is at least that of every accepted
    candidate and strictly above that of every accepted candidate before
    it in scan order. *)
Theorem sweep_selects_first_maximum (data : list formula_data)
    (ms1_spectra : list ms1_spectrum) (cfg : compound_config) :
  Forall (fun s => length (ms_mz_array s) = length (ms_intensity_array s)) ms1_spectra ->
  let cd := CompoundDetector find_peaks (load_all_references data) in
  exists accepted,
    accepted_of cd cfg ms1_spectra accepted /\
    (accepted = [] -> analyze_compound cd ms1_spectra cfg = Ret None) /\
    (accepted <> [] ->
     exists optimal before after,
       analyze_compound cd ms1_spectra cfg =
         Ret (Some {| optimal_detection := optimal;
                      all_detections := accepted;
                      detection_count := length accepted |}) /\
       accepted = before ++ optimal :: after /\
       (forall x, In x accepted -> vd_intensity x <= vd_intensity optimal) /\
       (forall x, In x before -> vd_intensity x < vd_intensity optimal)).
Proof.
  intros Hpar cd.
  destruct (accepted_of_total cd cfg ms1_spectra) as [accepted Hacc].
  { apply List.Forall_forall. intros s Hs.
    rewrite List.Forall_forall in Hpar.
    destruct (detect_compound_in_spectrum_Ret find_peaks _ _ cfg (Hpar s Hs)) as [r Hr].
    exists r. split; [exact Hr|]. intros d _.
    apply validate_against_reference_total. apply load_all_references_wf. }
  exists accepted. split; [exact Hacc|].
  destruct (sweep_accepted_of cd cfg ms1_spectra accepted Hacc [] 0%nat) as [n Hn].
  cbn [app] in Hn. unfold analyze_compound. rewrite Hn. cbn [mbind py_bind].
  split.
  - intros ->. reflexivity.
  - intros Hne.
    destruct (max_key_spec vd_intensity accepted Hne)
      as [best [before [after [Hmax [Heq [Hb Hall]]]]]].
    exists best, before, after.
    split; [|split; [exact Heq | split; [exact Hall | exact Hb]]].
    unfold select_optimal. destruct accepted as [|x l]; [congruence|].
    rewrite Hmax. reflexivity.
Qed.

(** C5 (absolute floor of the sweep-time locator).  On parallel arrays
    with a non-empty window in which every intensity is below the
    compound's intensity floor, [detect_compound_in_spectrum] returns
    [None]; and the sweep passes over such a spectrum without a call of the
    validator: it goes on as if the spectrum were not there, whatever the
    validator of the detector is. *)
Theorem weak_window_rejected (s : ms1_spectrum) (cfg : compound_config)
    (region_intensity : list Q) :
  let mask := window_mask (ms_mz_array s) (cfg_target_mz cfg) (cfg_mz_tolerance cfg) in
  compress (ms_intensity_array s) mask = Ret region_intensity ->
  region_intensity <> [] ->
  (forall v, In v region_intensity -> v < min_intensity cfg) ->
  detect_compound_in_spectrum find_peaks (ms_mz_array s) (ms_intensity_array s) cfg
    = Ret None /\
  forall validate rest all_detections detection_count,
    let cd := {| detect := detect_compound_in_spectrum find_peaks;
                 validate := validate |} in
    sweep cd (s :: rest) cfg all_detections detection_count =
    sweep cd rest cfg all_detections detection_count.
Proof.
  intros mask Hint Hne Hweak.
  assert (Hlen : length (ms_mz_array s) = length (ms_intensity_array s)).
  { apply compress_length in Hint. unfold mask in Hint.
    rewrite window_mask_length in Hint. congruence. }
  assert (Hany : any mask = true).
  { destruct (any mask) eqn:E; [reflexivity|]. exfalso. apply Hne.
    rewrite any_false in E. clear -E Hint.
    revert region_intensity Hint. generalize dependent (ms_intensity_array s).
    induction E as [|b m Hb _ IH]; intros arr r Hr.
    - destruct arr; [inversion Hr; reflexivity | discriminate].
    - destruct arr as [|a arr]; [discriminate|]. cbn [compress] in Hr.
      apply bind_Ret in Hr. destruct Hr as [r' [Hr' Hr]]. subst b.
      inversion Hr; subst. eauto. }
  assert (Hd : detect_compound_in_spectrum find_peaks (ms_mz_array s)
                 (ms_intensity_array s) cfg = Ret None).
  { destruct (detect_compound_in_spectrum_max find_peaks _ _ cfg Hlen Hany)
      as [rm [ri [v [m [_ [Hri [Hv [_ ->]]]]]]]].
    fold mask in Hri. rewrite Hint in Hri. inversion Hri; subst ri.
    rewrite (proj2 (Qlt_bool_iff _ _) (Hweak v Hv)). reflexivity. }
  split; [exact Hd|].
  intros validate rest all_detections detection_count cd.
  cbn [sweep detect cd]. rewrite Hd. reflexivity.
Qed.

(** C7 (only accepted candidates are reported).  Every detection in a
    sample's result for a compound comes from a collected spectrum on which
    the locator returned it and the validator returned valid, with an
    outcome that records the verdict; the optimal detection is one of these
    detections, and the detection count is their number. *)
Theorem sample_result_only_valid (py_int : string -> option Z) (isdigit : string -> bool)
    (reference_manager : ReferenceDataManager) (run : list spectrum)
    (configs : list (string * compound_config)) (formula : string)
    (res : compound_result) :
  let cd := CompoundDetector find_peaks reference_manager in
  analyze_sample_for_compounds py_int isdigit cd run configs !! formula = Some (Some res) ->
  exists ms1_spectra cfg,
    collect_ms1 py_int isdigit run = Ret ms1_spectra /\
    In (formula, cfg) configs /\
    accepted_of cd cfg ms1_spectra (all_detections res) /\
    (forall x, In x (all_detections res) ->
       exists s v,
         In s ms1_spectra /\
         detect_compound_in_spectrum find_peaks (ms_mz_array s) (ms_intensity_array s) cfg
           = Ret (Some (vd_detection x)) /\
         validate_against_reference reference_manager (vd_detection x) cfg
           = Ret (true, Some v) /\
         vd_validation x = Some v /\ is_valid v = true) /\
    In (optimal_detection res) (all_detections res) /\
    detection_count res = length (all_detections res).
Proof.
  intros cd Hres.
  destruct (analyze_sample_for_compounds_inv _ _ _ _ _ _ _ Hres)
    as [ms1 [cfg [Hc [Hin Ha]]]].
  destruct (analyze_compound_inv _ _ _ _ Ha) as [l [Hl Hsel]].
  destruct (select_optimal_Some _ _ Hsel) as [Hall [Hcount Hopt]].
  exists ms1, cfg. rewrite Hall.
  split; [exact Hc|]. split; [exact Hin|]. split; [exact Hl|].
  split; [|split; [exact Hopt | exact Hcount]].
  intros x Hx.
  destruct (accepted_of_valid cd cfg ms1 l Hl x Hx) as [s [Hs [Hd [Hv _]]]].
  cbn [cd CompoundDetector detect validate] in Hd, Hv.
  destruct (validate_against_reference_valid _ _ _ _ Hv) as [v [Hsome [Hvalid _]]].
  exists s, v. rewrite <- Hsome. auto.
Qed.

End SweepClaims.

(** ** The reference peak finder meets its contract *)

Section InstancesFacts.

Lemma plateau_lt (v : Q) (l : list Q) (n : nat) (y : Q) :
  Instances.plateau v l = (n, Some y) -> (n < length l)%nat.
Proof.
  revert n. induction l as [|x l IH]; intros n H; cbn [Instances.plateau] in H.
  - discriminate.
  - destruct (Qeq_bool x v).
    + destruct (Instances.plateau v l) as [n' after] eqn:E.
      inversion H; subst. specialize (IH n' eq_refl). cbn [length]. lia.
    + inversion H; subst. cbn [length]. lia.
Qed.

Lemma local_maxima_from_lt (l : list Q) :
  forall prev k,
    Forall (fun i => (i < k + length l)%nat) (Instances.local_maxima_from prev k l).
Proof.
  induction l as [|x l IH]; intros prev k; cbn [Instances.local_maxima_from].
  - constructor.
  - assert (Hlater : Forall (fun i => (i < k + length (x :: l))%nat)
                       (Instances.local_maxima_from x (S k) l)).
    { eapply List.Forall_impl; [|apply IH]. cbn [length]. intros i Hi. lia. }
    destruct (Qlt_bool prev x); [|exact Hlater].
    destruct (Instances.plateau x l) as [n [y|]] eqn:E; [|exact Hlater].
    destruct (Qlt_bool y x); [|exact Hlater].
    constructor; [|exact Hlater].
    apply plateau_lt in E. cbn [length].
    assert (n / 2 <= n)%nat by (apply Nat.Div0.div_le_upper_bound; lia). lia.
Qed.

Lemma local_maxima_lt (x : list Q) :
  Forall (fun i => (i < length x)%nat) (Instances.local_maxima x).
Proof.
  destruct x as [|x0 l]; [constructor|].
  cbn [Instances.local_maxima].
  eapply List.Forall_impl; [|apply local_maxima_from_lt]. cbn [length]. intros i Hi. lia.
Qed.

Lemma Forall_list_filter {A} (P : A -> Prop) (f : A -> bool) (l : list A) :
  Forall P l -> Forall P (List.filter f l).
Proof.
  induction 1 as [|x l Hx _ IH]; cbn [List.filter]; [constructor|].
  destruct (f x); [constructor; assumption | assumption].
Qed.

(** The indices [Instances.find_peaks] returns are indices of its argument. *)
Lemma instance_find_peaks_in_range (x : list Q) (height : Q) (distance : nat)
    (prominence : option Q) :
  Forall (fun k => (k < length x)%nat) (Instances.find_peaks x height distance prominence).
Proof.
  unfold Instances.find_peaks.
  destruct prominence; repeat apply Forall_list_filter; apply local_maxima_lt.
Qed.

(** Every peak it returns is at least as high as [height]. *)
Lemma instance_find_peaks_height (x : list Q) (height : Q) (distance : nat)
    (prominence : option Q) :
  Forall (fun k => height <= Instances.value x k)
         (Instances.find_peaks x height distance prominence).
Proof.
  unfold Instances.find_peaks.
  assert (H : Forall (fun k => height <= Instances.value x k)
                (List.filter (fun p => Qle_bool height (Instances.value x p))
                   (Instances.local_maxima x))).
  { apply List.Forall_forall. intros k Hk. apply filter_In in Hk.
    apply Qle_bool_iff. apply Hk. }
  destruct prominence; [apply Forall_list_filter|]; apply Forall_list_filter; exact H.
Qed.

End InstancesFacts.

(** ** The floor of the locator and the threshold of the validator *)

Section FloorAndThreshold.

Variable find_peaks : list Q -> Q -> nat -> option Q -> list nat.

(** The peak finder honours its [height] argument, as
    [scipy.signal.find_peaks] does. *)
Hypothesis find_peaks_height :
  forall x height distance prominence k v,
    In k (find_peaks x height distance prominence) -> x !! k = Some v -> height <= v.

(** The two methods agree on the class of a compound unless its formula
    alone marks it as the selenide. *)
Lemma min_intensity_agrees (cfg : compound_config) :
  cfg_min_intensity_threshold cfg = 1000 ->
  contains "C24H52PSe" (cfg_formula cfg) = false \/
  contains "TOP" (cfg_compound_name cfg) = true ->
  min_intensity cfg = min_intensity_threshold cfg.
Proof.
  intros Hcfg Hclass.
  unfold min_intensity, min_intensity_threshold, is_topse, is_top, is_oleic.
  rewrite Hcfg.
  destruct (contains "TOPSe" _), (contains "TOP" _), (contains "C24H52PSe" _),
    (contains "Oleic" _), (contains "C18H35O2" _);
    try reflexivity; destruct Hclass; discriminate.
Qed.

Lemma refine_with_peaks_floor (region_mz region_intensity : list Q) (floor v m : Q) :
  floor <= v ->
  floor <= (refine_with_peaks find_peaks region_mz region_intensity floor v m).1.
Proof.
  intros Hv. unfold refine_with_peaks.
  destruct (0 <? _)%nat; [|exact Hv].
  destruct (highest_peak _ _) as [best|] eqn:Eb; [|exact Hv].
  destruct (getitem region_intensity best) as [v'|] eqn:Ev; [|exact Hv].
  assert (Hv' : floor <= v').
  { unfold highest_peak in Eb.
    apply bind_Ret in Eb. destruct Eb as [vs [_ Eb]].
    apply bind_Ret in Eb. destruct Eb as [k [_ Eb]].
    apply getitem_In in Eb. apply getitem_Ret in Ev.
    eapply find_peaks_height; eassumption. }
  destruct (getitem region_mz best); exact Hv'.
Qed.

(** Every candidate of the locator is at or above the locator's floor. *)
Lemma detect_compound_in_spectrum_floor (mz_array intensity_array : list Q)
    (cfg : compound_config) (d : detection) :
  detect_compound_in_spectrum find_peaks mz_array intensity_array cfg = Ret (Some d) ->
  min_intensity cfg <= det_intensity d.
Proof.
  unfold detect_compound_in_spectrum.
  destruct (negb _); [discriminate|]. intros H.
  apply bind_Ret in H. destruct H as [region_mz [_ H]].
  apply bind_Ret in H. destruct H as [region_intensity [_ H]].
  apply bind_Ret in H. destruct H as [k [_ H]].
  apply bind_Ret in H. destruct H as [v [_ H]].
  apply bind_Ret in H. destruct H as [m [_ H]].
  destruct (Qlt_bool v _) eqn:E; [discriminate|].
  apply Qlt_bool_false in E.
  destruct (3 <? _)%nat.
  - pose proof (refine_with_peaks_floor region_mz region_intensity _ v m E) as Hr.
    destruct (refine_with_peaks _ _ _ _ _ _) as [v' m'].
    inversion H; subst. exact Hr.
  - inversion H; subst. exact E.
Qed.

(** Where the two methods agree on the class, a candidate of the locator
    passes the intensity test of the validator. *)
Lemma detect_compound_in_spectrum_threshold (mz_array intensity_array : list Q)
    (cfg : compound_config) (d : detection) :
  cfg_min_intensity_threshold cfg = 1000 ->
  contains "C24H52PSe" (cfg_formula cfg) = false \/
  contains "TOP" (cfg_compound_name cfg) = true ->
  detect_compound_in_spectrum find_peaks mz_array intensity_array cfg = Ret (Some d) ->
  Qle_bool (min_intensity_threshold cfg) (det_intensity d) = true.
Proof.
  intros Hcfg Hclass Hd. apply Qle_bool_iff.
  rewrite <- (min_intensity_agrees cfg Hcfg Hclass).
  eapply detect_compound_in_spectrum_floor. eassumption.
Qed.

End FloorAndThreshold.

(** ** The properties on the sample data *)

Section OnSampleData.

Import Examples.

(** The acceptance rule at the threshold: 1000 counts, 22 ppm. *)
Lemma validate_valid_iff_witness :
  exists v, validate_against_reference (load_all_references reference_file)
              at_threshold oleic = Ret (true, Some v).
Proof.
  destruct (validate_valid_iff reference_file at_threshold oleic oleic_reference)
    as [v [Hv [_ [Hthr _]]]].
  - vm_compute. reflexivity.
  - reflexivity.
  - exists v. rewrite Hv. rewrite Hthr; [reflexivity | reflexivity | reflexivity].
Defined.

(** The score is one of the two levels. *)
Lemma validation_score_first_near_peak_witness :
  exists v, validate_against_reference (load_all_references reference_file)
              on_main_peak hexanal = Ret (is_valid v, Some v) /\
            (validation_score v = 1 \/ validation_score v = 0.5).
Proof.
  destruct (validation_score_first_near_peak reference_file on_main_peak hexanal
              hexanal_reference)
    as [top [k [tm [v [_ [_ [_ [Hv [Hscore _]]]]]]]]].
  - vm_compute. reflexivity.
  - exists v. split; assumption.
Defined.

(** C6, as stated, fails.  The candidate sits on the main peak of the
    pattern [(100.00, 10), (100.01, 100)]: the main peak has a normalised
    intensity of 100% and its shifted m/z is the candidate's, yet the score
    is 0.5, because the loop stops at the 10% peak 0.01 below it. *)
Lemma validation_score_not_some_near_peak :
  exists v,
    validate_against_reference (load_all_references reference_file)
      on_main_peak hexanal = Ret (true, Some v) /\
    validation_score v = 0.5 /\
    ~ (validation_score v == 1 <->
       exists i p,
         zip (ref_mz hexanal_reference)
             (map (fun x => x / 100) (ref_intensity hexanal_reference)) !! i = Some p /\
         near_detected (det_mz on_main_peak) (det_mz on_main_peak - 100.01)
           (cfg_mz_tolerance_validation hexanal) p /\
         0.5 <= p.2).
Proof.
  eexists. split; [vm_compute; reflexivity|]. split; [reflexivity|].
  intros [_ H].
  assert (Hone : 0.5 == 1).
  { apply H. exists 1%nat, (100.01, 100 / 100).
    split; [reflexivity|]. split; [split|]; apply Qle_bool_iff; reflexivity. }
  discriminate Hone.
Qed.

(** No reference for propane: invalid. *)
Lemma validate_without_reference_witness :
  validate_against_reference (load_all_references reference_file)
    (candidate 44.0626 90000 44.0626) propane = Ret (false, None).
Proof.
  apply validate_without_reference.
  intros fd [<-|[<-|[<-|[<-|[]]]]] H; try discriminate H; reflexivity.
Defined.

(** The window of 0.1 around 283.2637. *)
Lemma locators_window_correct_witness :
  283.2637 - 0.1 <= 283.27 /\ 283.27 <= 283.2637 + 0.1.
Proof.
  apply (proj1 (locators_window_correct Instances.find_peaks scenario_mz
                  scenario_intensity 283.2637 0.1 oleic)
           {| peak_mz := 283.27; peak_intensity := 1200; corrected := false |}).
  vm_compute. reflexivity.
Defined.

(** Two samples in the window: the simple maximum. *)
Lemma locate_fallback_total_witness :
  exists p, find_true_peak_maximum Instances.find_peaks scenario_mz scenario_intensity
              283.2637 0.1 = Ret (Some p) /\ corrected p = false.
Proof.
  destruct (locate_fallback_total Instances.find_peaks instance_find_peaks_in_range
              scenario_mz scenario_intensity 283.2637 0.1)
    as [rm [ri [p [_ [Hri [Hp Hfall]]]]]].
  - reflexivity.
  - exists 283.27. split; [right; right; left; reflexivity|].
    split; apply Qle_bool_iff; reflexivity.
  - exists p. split; [exact Hp|]. apply Hfall. left.
    vm_compute in Hri. injection Hri as <-. vm_compute. lia.
Defined.

(** 800 counts at most in the window, floor 1000. *)
Lemma weak_window_rejected_witness :
  detect_compound_in_spectrum Instances.find_peaks (ms_mz_array weak)
    (ms_intensity_array weak) oleic = Ret None.
Proof.
  apply (weak_window_rejected Instances.find_peaks weak oleic [500; 800]).
  - reflexivity.
  - discriminate.
  - intros v [<-|[<-|[]]]; reflexivity.
Defined.

(** Three accepted candidates, the second is optimal. *)
Lemma sweep_selects_first_maximum_witness :
  exists res,
    analyze_compound detector ms1_spectra oleic = Ret (Some res) /\
    forall x, In x (all_detections res) ->
      vd_intensity x <= vd_intensity (optimal_detection res).
Proof.
  destruct (sweep_selects_first_maximum Instances.find_peaks reference_file
              ms1_spectra oleic)
    as [accepted [_ [Hnil Hcons]]].
  - repeat constructor.
  - destruct accepted as [|x l].
    + specialize (Hnil eq_refl). vm_compute in Hnil. discriminate Hnil.
    + destruct Hcons as [optimal [before [after [Hres [_ [Hmax _]]]]]]; [discriminate|].
      eexists. split; [exact Hres|]. exact Hmax.
Defined.

(** The run of four scans: the result for oleic acid. *)
Lemma sample_result_only_valid_witness :
  exists res,
    analyze_sample_for_compounds Instances.ascii_int Instances.ascii_isdigit detector
      run [("C18H35O2", oleic)] !! "C18H35O2" = Some (Some res) /\
    In (optimal_detection res) (all_detections res) /\
    detection_count res = length (all_detections res).
Proof.
  destruct (analyze_sample_for_compounds Instances.ascii_int Instances.ascii_isdigit
              detector run [("C18H35O2", oleic)] !! "C18H35O2")
    as [[res|]|] eqn:E.
  - exists res. split; [reflexivity|].
    destruct (sample_result_only_valid Instances.find_peaks Instances.ascii_int
                Instances.ascii_isdigit (load_all_references reference_file)
                run [("C18H35O2", oleic)] "C18H35O2" res E)
      as [ms1 [cfg [_ [_ [_ [_ [Hopt Hcount]]]]]]].
    split; assumption.
  - vm_compute in E. discriminate E.
  - vm_compute in E. discriminate E.
Defined.

(** A spectrum without a scan number and 9000 counts at the target changes
    nothing. *)
Lemma scan_number_zero_excluded_witness :
  analyze_sample_for_compounds Instances.ascii_int Instances.ascii_isdigit detector
    (unnumbered :: run) [("C18H35O2", oleic)] =
  analyze_sample_for_compounds Instances.ascii_int Instances.ascii_isdigit detector
    run [("C18H35O2", oleic)].
Proof.
  apply (proj2 (scan_number_zero_excluded Instances.ascii_int Instances.ascii_isdigit
                  detector [] run unnumbered [("C18H35O2", oleic)])).
  reflexivity.
Defined.

(** C9, at a failing input.  The reference file names the selenide
    [C24H52PSe] by its formula only.  The sweep-time locator takes the
    floor 1000 from the name and returns the candidate of 1500 counts at
    the target m/z; the validator takes the threshold 2000 from the formula
    and rejects it on intensity, its mass error being 0 ppm. *)
Theorem sweep_floor_below_validator_threshold :
  In ("C24H52PSe", selenide) (compounds_config (load_all_references reference_file)) /\
  min_intensity selenide = 1000 /\
  min_intensity_threshold selenide = 2000 /\
  exists d v,
    detect detector selenide_mz selenide_intensity selenide = Ret (Some d) /\
    det_intensity d = 1500 /\
    validate detector d selenide = Ret (false, Some v) /\
    mass_accuracy_ok v = true /\
    Qle_bool (min_intensity_threshold selenide) (det_intensity d) = false.
Proof.
  split; [right; left; reflexivity|]. split; [reflexivity|]. split; [reflexivity|].
  eexists. eexists. split; [vm_compute; reflexivity|].
  split; [reflexivity|]. split; [vm_compute; reflexivity|]. split; reflexivity.
Qed.

End OnSampleData.

(** * Further properties *)

(** ** Substrings *)

Section Substrings.

Lemma append_cons (c : ascii) (a q : string) :
  (String c a ++ q = String c (a ++ q))%string.
Proof. reflexivity. Qed.

Lemma append_nil_r (s : string) : (s ++ "" = s)%string.
Proof.
  induction s as [|c s IH]; [reflexivity|]. rewrite append_cons. congruence.
Qed.

Lemma prefix_app (a s : string) :
  String.prefix a s = true <-> exists q, s = (a ++ q)%string.
Proof.
  revert s. induction a as [|c a IH]; intros s; cbn [String.prefix].
  - split; [intros _; exists s; reflexivity | intros _; destruct s; reflexivity].
  - destruct s as [|c' s].
    + split; [discriminate | intros [q Hq]; discriminate].
    + cbn [String.prefix].
      destruct (Ascii.ascii_dec c c') as [->|Hne].
      * rewrite IH. split; intros [q Hq]; exists q;
          rewrite append_cons in *; congruence.
      * split; [discriminate | intros [q Hq]; rewrite append_cons in Hq; congruence].
Qed.

Lemma contains_substring (a s : string) :
  contains a s = true <-> exists p q, s = (p ++ a ++ q)%string.
Proof.
  induction s as [|c s IH]; cbn [contains]; rewrite orb_true_iff, prefix_app.
  - split.
    + intros [[q Hq]|H]; [exists EmptyString, q; exact Hq | discriminate].
    + intros [p [q H]]. left. destruct p; [exists q; exact H | discriminate].
  - rewrite IH. split.
    + intros [[q Hq]|[p [q H]]].
      * exists EmptyString, q. exact Hq.
      * exists (String c p), q. rewrite append_cons. congruence.
    + intros [[|c' p] [q H]].
      * left. exists q. exact H.
      * right. rewrite append_cons in H. exists p, q. congruence.
Qed.

Lemma string_app_assoc (a b c : string) : ((a ++ b) ++ c = a ++ (b ++ c))%string.
Proof.
  induction a as [|x a IH]; [reflexivity|].
  rewrite !append_cons. congruence.
Qed.

(** A string that contains [b] contains every substring of [b]. *)
Lemma contains_trans (a b s : string) :
  contains a b = true -> contains b s = true -> contains a s = true.
Proof.
  rewrite !contains_substring. intros [p [q ->]] [p' [q' ->]].
  exists (p' ++ p)%string, (q ++ q')%string.
  rewrite !string_app_assoc. reflexivity.
Qed.

End Substrings.

(** ** The reference file and the two dictionaries of the manager *)

Section LoaderFacts.

Lemma dict_get_set_eq {V} (k : string) (v : V) (d : list (string * V)) :
  dict_get k (dict_set k v d) = Some v.
Proof.
  induction d as [|[k' v'] d IH]; cbn [dict_set dict_get].
  - rewrite String.eqb_refl. reflexivity.
  - destruct (String.eqb k k') eqn:E; cbn [dict_get]; rewrite ?E, ?String.eqb_refl; auto.
Qed.

Lemma dict_get_set_ne {V} (k k' : string) (v : V) (d : list (string * V)) :
  k <> k' -> dict_get k' (dict_set k v d) = dict_get k' d.
Proof.
  intros Hne. induction d as [|[k0 v0] d IH]; cbn [dict_set dict_get].
  - destruct (String.eqb k' k) eqn:E; [|reflexivity].
    apply String.eqb_eq in E. congruence.
  - destruct (String.eqb k k0) eqn:E; cbn [dict_get].
    + apply String.eqb_eq in E. subst k0.
      destruct (String.eqb k' k) eqn:E'; [|reflexivity].
      apply String.eqb_eq in E'. congruence.
    + rewrite IH. reflexivity.
Qed.

Lemma dict_set_keys {V} (k : string) (v : V) (d : list (string * V)) :
  forall k', In k' (map fst (dict_set k v d)) <-> k' = k \/ In k' (map fst d).
Proof.
  induction d as [|[k0 v0] d IH]; intros k'; cbn [dict_set map fst In].
  - intuition congruence.
  - destruct (String.eqb k k0) eqn:E; cbn [map fst In].
    + apply String.eqb_eq in E. subst k0. intuition congruence.
    + rewrite IH. intuition congruence.
Qed.

Lemma dict_set_NoDup {V} (k : string) (v : V) (d : list (string * V)) :
  List.NoDup (map fst d) -> List.NoDup (map fst (dict_set k v d)).
Proof.
  induction d as [|[k0 v0] d IH]; intros Hd; cbn [dict_set map fst].
  - constructor; [intros [] | constructor].
  - inversion Hd as [|? ? Hnot Hd']; subst.
    destruct (String.eqb k k0) eqn:E; cbn [map fst].
    + apply String.eqb_eq in E. subst k0. constructor; assumption.
    + constructor; [|auto]. rewrite dict_set_keys. intros [->|H]; [|contradiction].
      rewrite String.eqb_refl in E. discriminate.
Qed.

Lemma dict_get_In {V} (k : string) (v : V) (d : list (string * V)) :
  dict_get k d = Some v -> In (k, v) d.
Proof.
  induction d as [|[k0 v0] d IH]; cbn [dict_get]; [discriminate|].
  destruct (String.eqb k k0) eqn:E.
  - apply String.eqb_eq in E. intros [= <-]. left. congruence.
  - intros H. right. auto.
Qed.

Lemma In_dict_get {V} (k : string) (v : V) (d : list (string * V)) :
  List.NoDup (map fst d) -> In (k, v) d -> dict_get k d = Some v.
Proof.
  induction d as [|[k0 v0] d IH]; intros Hd Hin; [destruct Hin|].
  inversion Hd as [|? ? Hnot Hd']; subst. cbn [dict_get].
  destruct Hin as [[= -> ->]|Hin].
  - rewrite String.eqb_refl. reflexivity.
  - destruct (String.eqb k k0) eqn:E; [|auto].
    apply String.eqb_eq in E. subst k0. exfalso. apply Hnot.
    apply (in_map fst) in Hin. exact Hin.
Qed.

Lemma load_reference_in_step (self : ReferenceDataManager) (fd : formula_data) :
  in_step self -> in_step (load_reference self fd).
Proof.
  intros [Hnd Hsync]. unfold load_reference.
  destruct (fd_mf fd) as [[|c formula]|]; try (split; assumption).
  destruct (parse_xy_string (fd_xy fd)) as [mz_array intensity_array].
  destruct (0 <? length mz_array)%nat; [|split; assumption].
  split; cbn [compounds_config reference_data].
  - apply dict_set_NoDup. exact Hnd.
  - intros f. rewrite lookup_insert.
    destruct (decide (String c formula = f)) as [<-|Hne].
    + rewrite dict_get_set_eq. reflexivity.
    + rewrite dict_get_set_ne by exact Hne. apply Hsync.
Qed.

Lemma load_all_references_in_step (data : list formula_data) :
  in_step (load_all_references data).
Proof.
  unfold load_all_references.
  assert (H0 : in_step {| reference_data := ∅; compounds_config := [] |}).
  { split; [constructor|]. intros f. cbn. rewrite lookup_empty. reflexivity. }
  revert H0. generalize {| reference_data := ∅; compounds_config := [] |}.
  induction data as [|fd data IH]; intros self H; cbn [fold_left]; [exact H|].
  apply IH. apply load_reference_in_step. exact H.
Qed.

Lemma load_all_references_app (data : list formula_data) (fd : formula_data) :
  load_all_references (data ++ [fd]) = load_reference (load_all_references data) fd.
Proof. unfold load_all_references. rewrite fold_left_app. reflexivity. Qed.

End LoaderFacts.

(** ** What the loader stores *)

Section LoaderProperties.

Lemma parse_xy_lines_numeric (lines : list (list (option Q))) :
  parse_xy_lines lines =
  if forallb (fun l => match l with
                       | [Some _; Some _] => true
                       | [_; _] => false
                       | _ => true
                       end) lines
  then Ret (flat_map (fun l => match l with [Some m; Some _] => [m] | _ => [] end) lines,
            flat_map (fun l => match l with [Some _; Some v] => [v] | _ => [] end) lines)
  else Raise.
Proof.
  induction lines as [|l lines IH]; [reflexivity|].
  cbn [parse_xy_lines forallb flat_map].
  destruct l as [|[m|] [|[v|] [|x l]]]; cbn [andb app]; try exact IH; try reflexivity.
  rewrite IH. destruct (forallb _ lines); reflexivity.
Qed.

(** X1.  [parse_xy_string].  Lines that do not have two parts are skipped.  When
    every two-part line holds two numbers, the two arrays are these
    numbers in the order of the lines; when one two-part line holds
    something [float] rejects, both arrays are empty.  In every case the
    arrays have one length. *)
Theorem parse_xy_string_pairs (lines : list (list (option Q))) :
  let numeric := fun l : list (option Q) =>
    match l with
    | [Some _; Some _] => true
    | [_; _] => false
    | _ => true
    end in
  (forallb numeric lines = true ->
   parse_xy_string lines =
     (flat_map (fun l => match l with [Some m; Some _] => [m] | _ => [] end) lines,
      flat_map (fun l => match l with [Some _; Some v] => [v] | _ => [] end) lines)) /\
  (forallb numeric lines = false -> parse_xy_string lines = ([], [])) /\
  length (parse_xy_string lines).1 = length (parse_xy_string lines).2.
Proof.
  intros numeric. unfold parse_xy_string, try_except.
  split; [|split].
  - intros H. rewrite parse_xy_lines_numeric. fold numeric. rewrite H. reflexivity.
  - intros H. rewrite parse_xy_lines_numeric. fold numeric. rewrite H. reflexivity.
  - apply parse_xy_string_length.
Qed.

Lemma load_reference_origin (P : string -> reference -> Prop) (self : ReferenceDataManager)
    (fd : formula_data) :
  (forall f r, reference_data self !! f = Some r -> P f r) ->
  (forall f r, fd_mf fd = Some f -> f <> EmptyString ->
     ref_mz r = (parse_xy_string (fd_xy fd)).1 ->
     ref_intensity r = (parse_xy_string (fd_xy fd)).2 ->
     ref_mz r <> [] ->
     ref_compound_name r = default f (fd_compound_name fd) ->
     ref_exact_mass r = default 0 (fd_em fd) ->
     ref_nominal_mass r = default 0 (fd_nominalMass fd) ->
     P f r) ->
  forall f r, reference_data (load_reference self fd) !! f = Some r -> P f r.
Proof.
  intros Hold Hnew f r. unfold load_reference.
  destruct (fd_mf fd) as [[|c formula]|] eqn:Emf; try apply Hold.
  destruct (parse_xy_string (fd_xy fd)) as [mz_array intensity_array] eqn:Exy.
  destruct (0 <? length mz_array)%nat eqn:E; [|apply Hold].
  cbn [reference_data]. rewrite lookup_insert.
  destruct (decide (String c formula = f)) as [<-|Hne]; [|apply Hold].
  intros [= <-]. apply Hnew; cbn; try reflexivity; try discriminate.
  apply length_pos_nonempty. exact E.
Qed.

(** X2.  A stored reference.  Whatever [get_reference] returns after
    [_load_all_references] was built from an entry of the file with that
    formula, which is not empty: its arrays are the parsed ['xy'] data,
    they are not empty and have one length, the exact mass is ['em'] (0
    when missing) and the name is the [_metadata] name (the formula when
    missing). *)
Theorem get_reference_origin (data : list formula_data) (formula : string) (r : reference) :
  get_reference (load_all_references data) formula = Some r ->
  formula <> EmptyString /\
  ref_mz r <> [] /\
  length (ref_mz r) = length (ref_intensity r) /\
  exists fd,
    In fd data /\ fd_mf fd = Some formula /\
    (ref_mz r, ref_intensity r) = parse_xy_string (fd_xy fd) /\
    ref_exact_mass r = default 0 (fd_em fd) /\
    ref_compound_name r = default formula (fd_compound_name fd).
Proof.
  unfold get_reference, load_all_references.
  set (P := fun (l : list formula_data) (f : string) (r : reference) =>
    f <> EmptyString /\ ref_mz r <> [] /\
    length (ref_mz r) = length (ref_intensity r) /\
    exists fd, In fd l /\ fd_mf fd = Some f /\
      (ref_mz r, ref_intensity r) = parse_xy_string (fd_xy fd) /\
      ref_exact_mass r = default 0 (fd_em fd) /\
      ref_compound_name r = default f (fd_compound_name fd)).
  enough (H : forall (l1 l2 : list formula_data) self,
             (forall f r, reference_data self !! f = Some r -> P l1 f r) ->
             forall f r, reference_data (fold_left load_reference l2 self) !! f = Some r ->
                         P (l1 ++ l2) f r).
  { intros Hr. apply (H [] data {| reference_data := ∅; compounds_config := [] |});
      [|exact Hr].
    intros f r' Hf. cbn in Hf. rewrite lookup_empty in Hf. discriminate. }
  clear formula r.
  intros l1 l2. revert l1. induction l2 as [|fd l2 IH]; intros l1 self Hself f r Hr.
  - rewrite app_nil_r. apply Hself. exact Hr.
  - cbn [fold_left] in Hr.
    replace (l1 ++ fd :: l2) with ((l1 ++ [fd]) ++ l2) by (rewrite <- app_assoc; reflexivity).
    apply (IH (l1 ++ [fd]) (load_reference self fd)); [|exact Hr].
    apply load_reference_origin.
    + intros f' r' Hf'. destruct (Hself f' r' Hf') as [H1 [H2 [H3 [fd' [Hin H4]]]]].
      split; [exact H1|]. split; [exact H2|]. split; [exact H3|].
      exists fd'. split; [apply in_or_app; left; exact Hin | exact H4].
    + intros f' r' Hmf Hne Hmz Hint Hnon Hname Hmass _.
      split; [exact Hne|]. split; [exact Hnon|].
      split; [rewrite Hmz, Hint; apply parse_xy_string_length|].
      exists fd. split; [apply in_or_app; right; left; reflexivity|].
      split; [exact Hmf|]. split; [|split; assumption].
      rewrite Hmz, Hint. destruct (parse_xy_string (fd_xy fd)); reflexivity.
Qed.

(** X3.  The two dictionaries of the manager.  After [_load_all_references],
    [get_compound_config] knows exactly the formulas [get_reference]
    knows; the configuration of a formula carries the exact mass and the
    name of its reference and the entries of [DETECTION_CONFIG]; and no
    formula is configured twice. *)
Theorem compound_config_of_reference (data : list formula_data) (formula : string) :
  let self := load_all_references data in
  (forall cfg,
     get_compound_config self formula = Some cfg <->
     exists r, get_reference self formula = Some r /\
       cfg = with_DETECTION_CONFIG formula (ref_exact_mass r) (ref_compound_name r)) /\
  (get_compound_config self formula = None <-> get_reference self formula = None) /\
  List.NoDup (map fst (compounds_config self)).
Proof.
  intros self. destruct (load_all_references_in_step data) as [Hnd Hsync].
  fold self in Hnd, Hsync. unfold get_compound_config, get_reference.
  rewrite (Hsync formula). split; [|split; [|exact Hnd]].
  - intros cfg. destruct (reference_data self !! formula) as [r|]; cbn.
    + split.
      * intros [= <-]. exists r. split; reflexivity.
      * intros [r' [[= <-] ->]]. reflexivity.
    + split; [discriminate | intros [r' [H _]]; discriminate].
  - destruct (reference_data self !! formula); cbn; split; congruence.
Qed.

(** X4.  A configured compound has its reference: in a sweep over the
    compounds of the manager the validator never takes its early return,
    and always hands back a full outcome. *)
Theorem configured_compound_is_validated (data : list formula_data) (formula : string)
    (cfg : compound_config) (d : detection) :
  In (formula, cfg) (compounds_config (load_all_references data)) ->
  cfg_formula cfg = formula /\
  exists r v,
    get_reference (load_all_references data) formula = Some r /\
    cfg_target_mz cfg = ref_exact_mass r /\
    validate_against_reference (load_all_references data) d cfg = Ret (is_valid v, Some v).
Proof.
  intros Hin. destruct (load_all_references_in_step data) as [Hnd Hsync].
  pose proof (In_dict_get _ _ _ Hnd Hin) as Hget. rewrite Hsync in Hget.
  destruct (reference_data (load_all_references data) !! formula) as [r|] eqn:Er;
    [|discriminate].
  cbn in Hget. injection Hget as <-. split; [reflexivity|].
  assert (Hr : get_reference (load_all_references data)
                 (cfg_formula (config_of formula r)) = Some r) by exact Er.
  destruct (validate_against_reference_Ret _ d _ r Hr (load_all_references_wf data _ _ Er))
    as [_ [_ [_ [v [_ [_ [_ [Hv _]]]]]]]].
  exists r, v. split; [exact Er|]. split; [reflexivity | exact Hv].
Qed.

(** X5.  Loading is incremental.  A further entry with a formula and at least
    one peak replaces what was stored for that formula; it leaves every
    other formula as it was; and an entry without a formula or without a
    peak changes nothing. *)
Theorem later_entry_replaces (data : list formula_data) (fd : formula_data) :
  (forall formula,
     fd_mf fd = Some formula -> formula <> EmptyString ->
     (parse_xy_string (fd_xy fd)).1 <> [] ->
     get_reference (load_all_references (data ++ [fd])) formula =
       Some {| ref_mz := (parse_xy_string (fd_xy fd)).1;
               ref_intensity := (parse_xy_string (fd_xy fd)).2;
               ref_compound_name := default formula (fd_compound_name fd);
               ref_exact_mass := default 0 (fd_em fd);
               ref_nominal_mass := default 0 (fd_nominalMass fd) |}) /\
  (forall formula,
     fd_mf fd <> Some formula ->
     get_reference (load_all_references (data ++ [fd])) formula =
     get_reference (load_all_references data) formula) /\
  (fd_mf fd = None \/ fd_mf fd = Some EmptyString \/ (parse_xy_string (fd_xy fd)).1 = [] ->
   load_all_references (data ++ [fd]) = load_all_references data).
Proof.
  rewrite load_all_references_app. unfold get_reference, load_reference.
  split; [|split].
  - intros formula Hmf Hne Hpeaks. rewrite Hmf.
    destruct formula as [|c f]; [congruence|].
    destruct (parse_xy_string (fd_xy fd)) as [mz_array intensity_array]. cbn in *.
    destruct mz_array; [congruence|]. cbn. apply lookup_insert_eq.
  - intros formula Hmf.
    destruct (fd_mf fd) as [[|c f]|]; try reflexivity.
    destruct (parse_xy_string (fd_xy fd)) as [mz_array intensity_array].
    destruct (0 <? length mz_array)%nat; [|reflexivity].
    cbn. apply lookup_insert_ne. congruence.
  - intros [->|[->|H]]; try reflexivity.
    destruct (fd_mf fd) as [[|c f]|]; try reflexivity.
    destruct (parse_xy_string (fd_xy fd)) as [mz_array intensity_array].
    cbn in H. subst. reflexivity.
Qed.

End LoaderProperties.

(** ** Scan numbers and the spectra of a run *)

Section RunProperties.

Variable py_int : string -> option Z.
Variable isdigit : string -> bool.

(** X6.  [extract_scan_number] raises in one case only: a string without
    ['scan='] that [isdigit] accepts and [int] rejects.  An [int] is
    returned as it is, and a string with ['scan='] gives the number after
    the last ['scan='], or 0 when [int] rejects it. *)
Theorem extract_scan_number_raises (id : scan_id) :
  (extract_scan_number py_int isdigit id = Raise <->
   exists s, id = IdStr s /\ contains "scan=" s = false /\
             isdigit s = true /\ py_int s = None) /\
  (forall n, id = IdInt n -> extract_scan_number py_int isdigit id = Ret n) /\
  (forall s, id = IdStr s -> contains "scan=" s = true ->
     extract_scan_number py_int isdigit id =
     Ret (default 0%Z (py_int (split_last "scan=" s)))).
Proof.
  split; [|split].
  - destruct id as [n|s|]; cbn [extract_scan_number].
    + split; [discriminate | intros [s [H _]]; discriminate].
    + destruct (contains "scan=" s) eqn:Ec.
      * split; [destruct (py_int _); discriminate|].
        intros [s' [[= <-] [H _]]]. congruence.
      * destruct (isdigit s) eqn:Ed.
        -- destruct (py_int s) eqn:Ei.
           ++ split; [discriminate|]. intros [s' [[= <-] [_ [_ H]]]]. congruence.
           ++ split; [|reflexivity]. intros _. exists s. auto.
        -- split; [discriminate|]. intros [s' [[= <-] [_ [H _]]]]. congruence.
    + split; [discriminate | intros [s [H _]]; discriminate].
  - intros n ->. reflexivity.
  - intros s -> Hc. cbn [extract_scan_number]. rewrite Hc.
    destruct (py_int _); reflexivity.
Qed.

(** The entry of [ms1_spectra] made of a spectrum and its scan number. *)
Lemma collect_ms1_cons (s : spectrum) (run : list spectrum) (l : list ms1_spectrum) :
  collect_ms1 py_int isdigit (s :: run) = Ret l ->
  exists l',
    collect_ms1 py_int isdigit run = Ret l' /\
    ((l = l' /\
      ((sp_ms_level s =? 1)%Z = false \/
       exists n, extract_scan_number py_int isdigit (sp_ID s) = Ret n /\ (n <= 0)%Z)) \/
     exists n,
       (sp_ms_level s =? 1)%Z = true /\
       extract_scan_number py_int isdigit (sp_ID s) = Ret n /\ (0 < n)%Z /\
       l = {| ms_scan := n;
              ms_rt := extract_rt_from_scan py_int isdigit s;
              ms_mz_array := sp_mz s;
              ms_intensity_array := sp_i s |} :: l').
Proof.
  cbn [collect_ms1]. destruct (sp_ms_level s =? 1)%Z eqn:E1.
  - intros H. apply bind_Ret in H. destruct H as [n [Hn H]].
    destruct (0 <? n)%Z eqn:E0.
    + apply bind_Ret in H. destruct H as [l' [Hl' H]]. injection H as <-.
      exists l'. split; [exact Hl'|]. right. exists n.
      apply Z.ltb_lt in E0. auto.
    + exists l. split; [exact H|]. left. split; [reflexivity|]. right.
      exists n. apply Z.ltb_ge in E0. auto.
  - intros H. exists l. split; [exact H|]. left. auto.
Qed.

(** X7.  The collected spectra.  When the first loop of
    [analyze_sample_for_compounds] returns, its list holds, in the order
    of the run, one entry for each spectrum of MS level 1 whose scan
    number is positive, with that scan number and the arrays of the
    spectrum; every entry has a positive scan number, and there are no
    more entries than spectra. *)
Theorem collect_ms1_entries (run : list spectrum) (l : list ms1_spectrum) :
  collect_ms1 py_int isdigit run = Ret l ->
  l = flat_map
        (fun s =>
           if (sp_ms_level s =? 1)%Z then
             match extract_scan_number py_int isdigit (sp_ID s) with
             | Ret n =>
                 if (0 <? n)%Z then
                   [{| ms_scan := n;
                       ms_rt := extract_rt_from_scan py_int isdigit s;
                       ms_mz_array := sp_mz s;
                       ms_intensity_array := sp_i s |}]
                 else []
             | Raise => []
             end
           else []) run /\
  Forall (fun e => (0 < ms_scan e)%Z) l /\
  (length l <= length run)%nat.
Proof.
  revert l. induction run as [|s run IH]; intros l H.
  - injection H as <-. repeat split; [constructor | reflexivity].
  - destruct (collect_ms1_cons s run l H) as [l' [Hl' Hcase]].
    destruct (IH l' Hl') as [Heq [Hpos Hlen]]. cbn [flat_map length].
    destruct Hcase as [[-> [E1|[n [Hn Hle]]]]|[n [E1 [Hn [Hlt ->]]]]].
    + rewrite E1. cbn [app]. repeat split; [exact Heq | exact Hpos | lia].
    + rewrite Hn. destruct (sp_ms_level s =? 1)%Z;
        [|cbn [app]; repeat split; [exact Heq | exact Hpos | lia]].
      assert (E0 : (0 <? n)%Z = false) by (apply Z.ltb_ge; exact Hle).
      rewrite E0. cbn [app]. repeat split; [exact Heq | exact Hpos | lia].
    + rewrite E1, Hn. assert (E0 : (0 <? n)%Z = true) by (apply Z.ltb_lt; exact Hlt).
      rewrite E0. cbn [app length]. split; [congruence|].
      split; [constructor; assumption | lia].
Qed.

Lemma single_spectrum_loop_Some (run : list spectrum) (n : Z) (mz i : list Q) :
  single_spectrum_loop py_int isdigit run n = Ret (Some (mz, i)) <->
  exists before s after,
    run = before ++ s :: after /\
    Forall (fun x => exists m, extract_scan_number py_int isdigit (sp_ID x) = Ret m /\ m <> n)
           before /\
    extract_scan_number py_int isdigit (sp_ID s) = Ret n /\
    mz = sp_mz s /\ i = sp_i s.
Proof.
  induction run as [|x run IH]; cbn [single_spectrum_loop].
  - split; [discriminate|]. intros [[|? ?] [? [? [H _]]]]; discriminate.
  - split.
    + intros H. apply bind_Ret in H. destruct H as [m [Hm H]].
      destruct (m =? n)%Z eqn:E.
      * apply Z.eqb_eq in E. subst m. injection H as <- <-.
        exists [], x, run. repeat split; [constructor | exact Hm].
      * apply IH in H. destruct H as [before [s [after [-> [Hb Hs]]]]].
        exists (x :: before), s, after. split; [reflexivity|]. split; [|exact Hs].
        constructor; [|exact Hb]. exists m. split; [exact Hm|].
        apply Z.eqb_neq. exact E.
    + intros [[|y before] [s [after [Hrun [Hb [Hs [-> ->]]]]]]].
      * injection Hrun as -> ->. rewrite Hs. cbn [mbind py_bind].
        rewrite Z.eqb_refl. reflexivity.
      * injection Hrun as -> ->. inversion Hb as [|? ? [m [Hm Hne]] Hb']; subst.
        rewrite Hm. cbn [mbind py_bind].
        apply Z.eqb_neq in Hne. rewrite Hne. apply IH.
        exists before, s, after. auto.
Qed.

(** X8.  [_extract_single_spectrum] returns arrays exactly when some spectrum of
    the run has the wanted scan number and the scan numbers of all the
    spectra before it were read and differ: the arrays are those of the
    first such spectrum, whatever its MS level. *)
Theorem extract_single_spectrum_first (run : list spectrum) (n : Z) (mz i : list Q) :
  extract_single_spectrum py_int isdigit run n = Some (mz, i) <->
  exists before s after,
    run = before ++ s :: after /\
    Forall (fun x => exists m, extract_scan_number py_int isdigit (sp_ID x) = Ret m /\ m <> n)
           before /\
    extract_scan_number py_int isdigit (sp_ID s) = Ret n /\
    mz = sp_mz s /\ i = sp_i s.
Proof.
  rewrite <- single_spectrum_loop_Some. unfold extract_single_spectrum, try_except.
  destruct (single_spectrum_loop py_int isdigit run n) as [[r|]|];
    split; intros H; try discriminate; congruence.
Qed.

Lemma collect_ms1_scans (run : list spectrum) (nums : list Z) :
  List.Forall2 (fun s n => extract_scan_number py_int isdigit (sp_ID s) = Ret n) run nums ->
  forall l e, collect_ms1 py_int isdigit run = Ret l -> In e l -> In (ms_scan e) nums.
Proof.
  induction 1 as [|s n run nums Hn _ IH]; intros l e Hl He.
  - injection Hl as <-. destruct He.
  - destruct (collect_ms1_cons s run l Hl) as [l' [Hl' Hcase]].
    destruct Hcase as [[-> _]|[m [_ [Hm [_ ->]]]]].
    + right. eapply IH; eassumption.
    + destruct He as [<-|He]; [|right; eapply IH; eassumption].
      left. cbn. congruence.
Qed.

(** X9.  The spectrum behind a detection.  When the scan numbers of the
    spectra of a run can all be read and are pairwise distinct,
    [_extract_single_spectrum] at the scan number of a collected spectrum
    returns the two arrays the sweep examined for it. *)
Theorem extract_single_spectrum_of_collected (run : list spectrum) (nums : list Z)
    (l : list ms1_spectrum) (e : ms1_spectrum) :
  List.Forall2 (fun s n => extract_scan_number py_int isdigit (sp_ID s) = Ret n) run nums ->
  List.NoDup nums ->
  collect_ms1 py_int isdigit run = Ret l ->
  In e l ->
  extract_single_spectrum py_int isdigit run (ms_scan e) =
    Some (ms_mz_array e, ms_intensity_array e).
Proof.
  intros Hnums Hnd Hl He.
  enough (H : single_spectrum_loop py_int isdigit run (ms_scan e) =
              Ret (Some (ms_mz_array e, ms_intensity_array e))).
  { unfold extract_single_spectrum. rewrite H. reflexivity. }
  revert l Hnd Hl He.
  induction Hnums as [|s n run nums Hn Hrest IH]; intros l Hnd Hl He.
  - injection Hl as <-. destruct He.
  - inversion Hnd as [|? ? Hnot Hnd']; subst.
    destruct (collect_ms1_cons s run l Hl) as [l' [Hl' Hcase]].
    cbn [single_spectrum_loop]. rewrite Hn. cbn [mbind py_bind].
    assert (Hlater : In e l' ->
              (if (n =? ms_scan e)%Z then Ret (Some (sp_mz s, sp_i s))
               else single_spectrum_loop py_int isdigit run (ms_scan e)) =
              Ret (Some (ms_mz_array e, ms_intensity_array e))).
    { intros He'. pose proof (collect_ms1_scans run nums Hrest l' e Hl' He') as Hin.
      assert (E : (n =? ms_scan e)%Z = false) by (apply Z.eqb_neq; congruence).
      rewrite E. eapply IH; eassumption. }
    destruct Hcase as [[-> _]|[m [_ [Hm [_ ->]]]]]; [auto|].
    destruct He as [<-|He]; [|auto].
    cbn [ms_scan ms_mz_array ms_intensity_array].
    assert (m = n) by congruence. subst m. rewrite Z.eqb_refl. reflexivity.
Qed.

Lemma split_last_absent (sep s : string) :
  contains sep s = false -> split_last sep s = s.
Proof.
  induction s as [|c s IH]; [reflexivity|].
  cbn [contains split_last]. rewrite orb_false_iff. intros [Hp Hc].
  rewrite Hc, Hp. reflexivity.
Qed.

(** X10.  The two extractors of scan numbers.  On an [int], and on a string with
    ['scan='], [extract_scan_number] returns what
    [SpectrumExtractor._extract_scan_number] returns, with 0 in place of
    [None]; and whenever [extract_scan_number] returns a number other than
    0, [SpectrumExtractor._extract_scan_number] returns that number. *)
Theorem scan_number_extractors_agree (id : scan_id) :
  (match id with
   | IdStr s => contains "scan=" s = true
   | _ => True
   end ->
   extract_scan_number py_int isdigit id =
   Ret (default 0%Z (extractor_scan_number py_int id))) /\
  (forall n, extract_scan_number py_int isdigit id = Ret n -> n <> 0%Z ->
             extractor_scan_number py_int id = Some n).
Proof.
  split.
  - destruct id as [n|s|]; cbn [extract_scan_number extractor_scan_number].
    + reflexivity.
    + intros ->. destruct (py_int _); reflexivity.
    + reflexivity.
  - intros n. destruct id as [m|s|]; cbn [extract_scan_number extractor_scan_number].
    + intros [= ->] _. reflexivity.
    + destruct (contains "scan=" s) eqn:Ec.
      * destruct (py_int _); intros [= ->] Hn; congruence.
      * rewrite (split_last_absent _ _ Ec).
        destruct (isdigit s); [|intros [= ->] Hn; congruence].
        destruct (py_int s); [intros [= ->] _; reflexivity | discriminate].
    + intros [= ->] Hn. congruence.
Qed.

(** X11.  [extract_spectrum_at_scan] returns the first spectrum of MS level 1
    whose scan number is the target, with its arrays and that scan number;
    it returns [None] exactly when the run has no such spectrum. *)
Theorem extract_spectrum_at_scan_first (run : list spectrum) (target_scan : Z) :
  (forall d,
     extract_spectrum_at_scan py_int run target_scan = Some d ->
     exists before s after,
       run = before ++ s :: after /\
       Forall (fun x => sp_ms_level x <> 1%Z \/
                        extractor_scan_number py_int (sp_ID x) <> Some target_scan) before /\
       sp_ms_level s = 1%Z /\
       extractor_scan_number py_int (sp_ID s) = Some target_scan /\
       d = {| sd_mz_array := sp_mz s;
              sd_intensity_array := sp_i s;
              sd_rt := safe_rt_extraction s;
              sd_scan_id := target_scan |}) /\
  (extract_spectrum_at_scan py_int run target_scan = None <->
   Forall (fun x => sp_ms_level x <> 1%Z \/
                    extractor_scan_number py_int (sp_ID x) <> Some target_scan) run).
Proof.
  induction run as [|x run [IHs IHn]]; cbn [extract_spectrum_at_scan].
  - split; [discriminate|]. split; [constructor | reflexivity].
  - assert (Hskip : (sp_ms_level x <> 1%Z \/
                     extractor_scan_number py_int (sp_ID x) <> Some target_scan) ->
              (forall d, extract_spectrum_at_scan py_int run target_scan = Some d ->
                 exists before s after,
                   x :: run = before ++ s :: after /\
                   Forall (fun x => sp_ms_level x <> 1%Z \/
                              extractor_scan_number py_int (sp_ID x) <> Some target_scan)
                          before /\
                   sp_ms_level s = 1%Z /\
                   extractor_scan_number py_int (sp_ID s) = Some target_scan /\
                   d = {| sd_mz_array := sp_mz s;
                          sd_intensity_array := sp_i s;
                          sd_rt := safe_rt_extraction s;
                          sd_scan_id := target_scan |}) /\
              (extract_spectrum_at_scan py_int run target_scan = None <->
               Forall (fun x => sp_ms_level x <> 1%Z \/
                          extractor_scan_number py_int (sp_ID x) <> Some target_scan)
                      (x :: run))).
    { intros Hx. split.
      - intros d Hd. destruct (IHs d Hd) as [before [s [after [-> [Hb Hs]]]]].
        exists (x :: before), s, after. split; [reflexivity|]. split; [|exact Hs].
        constructor; assumption.
      - rewrite IHn. split; [intros H; constructor; assumption|].
        intros H. inversion H; assumption. }
    destruct (sp_ms_level x =? 1)%Z eqn:E1.
    + apply Z.eqb_eq in E1.
      destruct (extractor_scan_number py_int (sp_ID x)) as [n|] eqn:En.
      * destruct (n =? target_scan)%Z eqn:Et.
        -- apply Z.eqb_eq in Et. subst n. split.
           ++ intros d [= <-]. exists [], x, run.
              repeat split; [constructor | exact E1 | exact En].
           ++ split; [discriminate|]. intros H. inversion H as [|? ? [Hx|Hx] _]; congruence.
        -- apply Z.eqb_neq in Et. apply Hskip. right. congruence.
      * apply Hskip. right. congruence.
    + apply Z.eqb_neq in E1. apply Hskip. left. exact E1.
Qed.

End RunProperties.

(** ** What a locator returns *)

Section CandidateProperties.

Variable find_peaks : list Q -> Q -> nat -> option Q -> list nat.

Lemma compress_pair {A B} (a : list A) (b : list B) (mask : list bool)
    (ra : list A) (rb : list B) (j : nat) (x : A) (y : B) :
  compress a mask = Ret ra -> compress b mask = Ret rb ->
  ra !! j = Some x -> rb !! j = Some y ->
  exists k, a !! k = Some x /\ b !! k = Some y /\ mask !! k = Some true.
Proof.
  revert b mask ra rb j.
  induction a as [|a0 a IH]; intros [|b0 b] [|m mask] ra rb j Ha Hb Hx Hy;
    cbn [compress] in Ha, Hb; try discriminate.
  - injection Ha as <-. destruct j; discriminate.
  - apply bind_Ret in Ha. destruct Ha as [ra' [Ha' Ha]].
    apply bind_Ret in Hb. destruct Hb as [rb' [Hb' Hb]].
    destruct m; injection Ha as <-; injection Hb as <-.
    + destruct j as [|j].
      * injection Hx as <-. injection Hy as <-. exists 0%nat. auto.
      * destruct (IH _ _ _ _ _ Ha' Hb' Hx Hy) as [k Hk]. exists (S k). exact Hk.
    + destruct (IH _ _ _ _ _ Ha' Hb' Hx Hy) as [k Hk]. exists (S k). exact Hk.
Qed.

Lemma compress_lookup {A} (a : list A) (mask : list bool) (ra : list A) (k : nat) (x : A) :
  compress a mask = Ret ra -> a !! k = Some x -> mask !! k = Some true -> In x ra.
Proof.
  revert mask ra k. induction a as [|a0 a IH]; intros [|m mask] ra k Ha Hx Hm;
    cbn [compress] in Ha; try discriminate.
  apply bind_Ret in Ha. destruct Ha as [ra' [Ha' Ha]].
  destruct k as [|k].
  - injection Hx as <-. injection Hm as ->. injection Ha as <-. left. reflexivity.
  - pose proof (IH _ _ _ Ha' Hx Hm) as Hin.
    destruct m; injection Ha as <-; [right|]; exact Hin.
Qed.

Lemma compress_count {A} (a : list A) (mask : list bool) (ra : list A) :
  compress a mask = Ret ra -> length ra = length (List.filter id mask).
Proof.
  revert mask ra. induction a as [|a0 a IH]; intros [|m mask] ra Ha;
    cbn [compress] in Ha; try discriminate.
  - injection Ha as <-. reflexivity.
  - apply bind_Ret in Ha. destruct Ha as [ra' [Ha' Ha]].
    cbn [List.filter]. destruct m; injection Ha as <-; cbn [id length]; rewrite (IH _ _ Ha');
      reflexivity.
Qed.

Lemma refine_with_peaks_aligned (region_mz region_intensity : list Q) (floor v m : Q) :
  length region_mz = length region_intensity ->
  (exists j, region_mz !! j = Some m /\ region_intensity !! j = Some v) ->
  exists j,
    region_mz !! j = Some (refine_with_peaks find_peaks region_mz region_intensity floor v m).2 /\
    region_intensity !! j =
      Some (refine_with_peaks find_peaks region_mz region_intensity floor v m).1.
Proof.
  intros Hlen Hj. unfold refine_with_peaks.
  destruct (0 <? _)%nat; [|exact Hj].
  destruct (highest_peak _ _) as [best|]; [|exact Hj].
  destruct (getitem region_intensity best) as [v'|] eqn:Ev; [|exact Hj].
  apply getitem_Ret in Ev.
  destruct (getitem region_mz best) as [m'|] eqn:Em.
  - apply getitem_Ret in Em. exists best. auto.
  - exfalso. apply lookup_lt_Some in Ev. rewrite <- Hlen in Ev.
    destruct (getitem_lt region_mz best Ev) as [m' Hm']. congruence.
Qed.

(** X12.  The candidate of the sweep-time locator is a sample of the spectrum:
    its m/z and its intensity stand at one index of the two arrays, inside
    the window.  Its other fields are the target m/z, the ppm error of its
    m/z against the target, and the number of m/z values in the window,
    which is not zero. *)
Theorem detect_candidate_is_sample (mz_array intensity_array : list Q)
    (cfg : compound_config) (d : detection) :
  detect_compound_in_spectrum find_peaks mz_array intensity_array cfg = Ret (Some d) ->
  (exists k, mz_array !! k = Some (det_mz d) /\
             intensity_array !! k = Some (det_intensity d) /\
             in_window (cfg_target_mz cfg) (cfg_mz_tolerance cfg) (det_mz d)) /\
  det_target_mz d = cfg_target_mz cfg /\
  det_mz_error_ppm d = ppm_error (det_mz d) (cfg_target_mz cfg) /\
  det_region_peaks d =
    length (List.filter id
              (window_mask mz_array (cfg_target_mz cfg) (cfg_mz_tolerance cfg))) /\
  (0 < det_region_peaks d)%nat.
Proof.
  intros Hd. pose proof (detect_compound_in_spectrum_In find_peaks _ _ _ _ Hd) as Hw.
  revert Hd. unfold detect_compound_in_spectrum.
  destruct (negb _) eqn:Eany; [discriminate|]. intros H.
  apply negb_false_iff in Eany.
  apply bind_Ret in H. destruct H as [region_mz [Hmz H]].
  apply bind_Ret in H. destruct H as [region_intensity [Hint H]].
  apply bind_Ret in H. destruct H as [k [_ H]].
  apply bind_Ret in H. destruct H as [v [Hv H]].
  apply bind_Ret in H. destruct H as [m [Hm H]].
  destruct (Qlt_bool v _); [discriminate|].
  apply getitem_Ret in Hv, Hm.
  pose proof (compress_same_length _ _ _ _ _ Hmz Hint) as Hlen.
  pose proof (compress_count _ _ _ Hint) as Hcount.
  assert (Hpos : (0 < length region_intensity)%nat).
  { apply lookup_lt_Some in Hv. lia. }
  assert (Hal : exists j, region_mz !! j = Some (det_mz d) /\
                          region_intensity !! j = Some (det_intensity d) /\
                          det_region_peaks d = length region_intensity /\
                          det_target_mz d = cfg_target_mz cfg /\
                          det_mz_error_ppm d = ppm_error (det_mz d) (cfg_target_mz cfg)).
  { destruct (3 <? _)%nat.
    - destruct (refine_with_peaks_aligned region_mz region_intensity (min_intensity cfg)
                  v m Hlen (ex_intro _ k (conj Hm Hv))) as [j [Hj1 Hj2]].
      destruct (refine_with_peaks _ _ _ _ _ _) as [v' m'].
      injection H as <-. exists j. cbn. auto.
    - injection H as <-. exists k. cbn. auto. }
  destruct Hal as [j [Hj1 [Hj2 [Hpeaks [Htarget Hppm]]]]].
  destruct (compress_pair _ _ _ _ _ _ _ _ Hmz Hint Hj1 Hj2) as [i [Hi1 [Hi2 _]]].
  split; [exists i; auto|]. split; [exact Htarget|]. split; [exact Hppm|].
  rewrite Hpeaks. split; [exact Hcount | exact Hpos].
Qed.

(** X13.  The candidate of the plot-time locator is a sample of the spectrum
    inside the window.  It is marked corrected only when the window holds
    more than three samples, and when it is not marked corrected no sample
    of the window has a greater intensity. *)
Theorem find_true_peak_maximum_is_sample (mz_array intensity_array : list Q) (t w : Q)
    (p : peak) :
  find_true_peak_maximum find_peaks mz_array intensity_array t w = Ret (Some p) ->
  (exists k, mz_array !! k = Some (peak_mz p) /\
             intensity_array !! k = Some (peak_intensity p) /\
             in_window t w (peak_mz p)) /\
  (corrected p = true ->
   (3 < length (List.filter id (window_mask mz_array t w)))%nat) /\
  (corrected p = false ->
   forall k m v, mz_array !! k = Some m -> intensity_array !! k = Some v ->
                 in_window t w m -> v <= peak_intensity p).
Proof.
  intros Hp. pose proof (find_true_peak_maximum_In find_peaks _ _ _ _ _ Hp) as Hw.
  revert Hp. unfold find_true_peak_maximum.
  destruct (negb _); [discriminate|]. intros H.
  apply bind_Ret in H. destruct H as [region_mz [Hmz H]].
  apply bind_Ret in H. destruct H as [region_intensity [Hint H]].
  apply bind_Ret in H. destruct H as [found [Hf H]].
  pose proof (compress_count _ _ _ Hint) as Hcount.
  destruct found as [q|].
  - injection H as ->. unfold true_peak in Hf.
    destruct (3 <? length region_intensity)%nat eqn:E3; [|discriminate].
    apply Nat.ltb_lt in E3.
    apply bind_Ret in Hf. destruct Hf as [top [_ Hf]].
    destruct (0 <? _)%nat; [|discriminate].
    apply bind_Ret in Hf. destruct Hf as [best [_ Hf]].
    apply bind_Ret in Hf. destruct Hf as [m [Hm Hf]].
    apply bind_Ret in Hf. destruct Hf as [v [Hv Hf]].
    injection Hf as <-. apply getitem_Ret in Hm, Hv. cbn in *.
    destruct (compress_pair _ _ _ _ _ _ _ _ Hmz Hint Hm Hv) as [i [Hi1 [Hi2 _]]].
    split; [exists i; auto|]. split; [intros _; lia | discriminate].
  - apply bind_Ret in H. destruct H as [k [Hk H]].
    apply bind_Ret in H. destruct H as [m [Hm H]].
    apply bind_Ret in H. destruct H as [v [Hv H]].
    injection H as <-. apply getitem_Ret in Hm, Hv. cbn in *.
    destruct (compress_pair _ _ _ _ _ _ _ _ Hmz Hint Hm Hv) as [i [Hi1 [Hi2 _]]].
    split; [exists i; auto|]. split; [discriminate|]. intros _ j mj vj Hmj Hvj Hwin.
    assert (Hne : region_intensity <> []).
    { intros ->. destruct k; discriminate. }
    destruct (argmax_spec region_intensity Hne) as [k' [v' [Hk' [Hv' Hmax]]]].
    assert (k' = k) by congruence. subst k'.
    assert (v' = v) by congruence. subst v'.
    apply Hmax. eapply compress_lookup; [exact Hint | exact Hvj |].
    unfold window_mask. rewrite list_lookup_fmap, Hmj. cbn. f_equal.
    destruct Hwin as [H1 H2]. apply Qle_bool_iff in H1, H2. rewrite H1, H2. reflexivity.
Qed.


End CandidateProperties.

(** ** What the validator reports *)

Section OutcomeProperties.



Lemma main_peak_loop_matches (pairs : list (Q * Q)) (main_mz main_intensity mz_shift tol : Q) :
  let r := main_peak_loop pairs main_mz main_intensity mz_shift tol in
  length r.2 = (if r.1 then 1 else 0)%nat /\
  Forall (fun m => im_detected_mz m = main_mz /\
                   im_detected_intensity m = main_intensity /\
                   0.5 <= im_reference_intensity m /\
                   im_mz_error m <= tol) r.2.
Proof.
  induction pairs as [|[m n] pairs IH]; cbn [main_peak_loop].
  - split; [reflexivity | constructor].
  - destruct (Qle_bool 0.01 n); [|exact IH].
    destruct (Qle_bool _ tol) eqn:E2; [|exact IH].
    destruct (Qle_bool 0.5 n) eqn:E3; cbn [fst snd length].
    + split; [reflexivity|]. constructor; [|constructor].
      cbn. repeat split; apply Qle_bool_iff; assumption.
    + split; [reflexivity | constructor].
Qed.

(** The outcome of the validator on a well-formed reference, field by
    field. *)
Lemma validate_against_reference_outcome (self : ReferenceDataManager) (d : detection)
    (cfg : compound_config) (r : reference) :
  get_reference self (cfg_formula cfg) = Some r ->
  wf_reference r ->
  exists top main_idx theoretical_main_mz,
    amax (ref_intensity r) = Ret top /\
    argmax (map (fun x => x / top) (ref_intensity r)) = Ret main_idx /\
    ref_mz r !! main_idx = Some theoretical_main_mz /\
    let loop :=
      main_peak_loop (zip (ref_mz r) (map (fun x => x / top) (ref_intensity r)))
        (det_mz d) (det_intensity d) (det_mz d - theoretical_main_mz)
        (cfg_mz_tolerance_validation cfg) in
    let ok := Qlt_bool (ppm_error (det_mz d) (cfg_target_mz cfg)) 300 in
    let valid := Qle_bool (min_intensity_threshold cfg) (det_intensity d) && ok in
    validate_against_reference self d cfg =
      Ret (valid,
           Some {| is_valid := valid;
                   match_count := length loop.2;
                   required_matches := cfg_min_isotope_matches cfg;
                   matches := loop.2;
                   validation_score := if loop.1 then 1 else 0.5;
                   main_peak_intensity := det_intensity d;
                   mass_error_ppm := ppm_error (det_mz d) (cfg_target_mz cfg);
                   mass_accuracy_ok := ok;
                   validation_criteria := "mass_accuracy_plus_intensity";
                   main_peak_match := loop.1 |}).
Proof.
  intros Hget [Hlen Hne]. unfold validate_against_reference. rewrite Hget.
  assert (Hne' : ref_intensity r <> []).
  { intros E. rewrite E in Hlen. destruct (ref_mz r); [congruence | discriminate]. }
  destruct (amax_Ret _ Hne') as [top Htop]. rewrite Htop. cbn [mbind py_bind].
  destruct (argmax_spec (map (fun x => x / top) (ref_intensity r))) as [k [nv [Hk [Hnv _]]]].
  { destruct (ref_intensity r); [congruence | discriminate]. }
  rewrite Hk. cbn [mbind py_bind].
  assert (Hkm : exists tm, ref_mz r !! k = Some tm).
  { apply lookup_lt_is_Some. rewrite Hlen. apply lookup_lt_Some in Hnv.
    rewrite length_map in Hnv. exact Hnv. }
  destruct Hkm as [tm Htm].
  rewrite (proj2 (getitem_Ret _ _ _) Htm). cbn [mbind py_bind].
  exists top, k, tm.
  split; [first [reflexivity | exact Htop]|].
  split; [first [reflexivity | exact Hk]|]. split; [exact Htm|].
  cbv zeta. destruct (main_peak_loop _ _ _ _ _) as [mpm ms]. reflexivity.
Qed.

Variable data : list formula_data.


(** X16.  The bookkeeping of an outcome.  The match count is the length of the
    match list, 1 when a main-peak match is recorded and 0 otherwise; the
    required number of matches is copied from the configuration and takes
    no part in the verdict; a valid verdict implies the mass-accuracy
    flag; and a recorded match carries the candidate's m/z and intensity,
    a reference intensity of at least 50% and an m/z error within the
    validation tolerance. *)
Theorem validation_outcome_bookkeeping (d : detection) (cfg : compound_config)
    (r : reference) :
  get_reference (load_all_references data) (cfg_formula cfg) = Some r ->
  exists v,
    validate_against_reference (load_all_references data) d cfg = Ret (is_valid v, Some v) /\
    match_count v = length (matches v) /\
    match_count v = (if main_peak_match v then 1 else 0)%nat /\
    required_matches v = cfg_min_isotope_matches cfg /\
    main_peak_intensity v = det_intensity d /\
    (is_valid v = true -> mass_accuracy_ok v = true) /\
    Forall (fun m => im_detected_mz m = det_mz d /\
                     im_detected_intensity m = det_intensity d /\
                     0.5 <= im_reference_intensity m /\
                     im_mz_error m <= cfg_mz_tolerance_validation cfg) (matches v).
Proof.
  intros Hget. pose proof (load_all_references_wf data _ _ Hget) as Hwf.
  destruct (validate_against_reference_outcome _ d cfg r Hget Hwf)
    as [top [k [tm [_ [_ [_ H]]]]]].
  cbv zeta in H.
  match type of H with _ = Ret (_, Some ?x) => exists x end.
  split; [exact H|].
  cbn [match_count matches main_peak_match required_matches main_peak_intensity
       is_valid mass_accuracy_ok].
  destruct (main_peak_loop_matches
              (zip (ref_mz r) (map (fun x => x / top) (ref_intensity r)))
              (det_mz d) (det_intensity d) (det_mz d - tm)
              (cfg_mz_tolerance_validation cfg)) as [L F].
  cbv zeta in L, F.
  split; [reflexivity|]. split; [exact L|]. split; [reflexivity|]. split; [reflexivity|].
  split; [|exact F]. intros Hv. apply andb_true_iff in Hv. apply Hv.
Qed.



End OutcomeProperties.

(** ** How sweeps compose *)

Section SweepProperties.

Variable cd : compound_detector.

(** X18.  The sweep of a run cut in two is the sweep of the first part followed
    by the sweep of the second part from the accumulator and the counter
    the first part leaves. *)
Theorem sweep_app (a b : list ms1_spectrum) (cfg : compound_config)
    (all_detections : list validated_detection) (detection_count : nat) :
  sweep cd (a ++ b) cfg all_detections detection_count =
  (r ← sweep cd a cfg all_detections detection_count;
   sweep cd b cfg r.1 r.2).
Proof.
  revert all_detections detection_count.
  induction a as [|s a IH]; intros acc n; cbn [app sweep].
  - reflexivity.
  - destruct (detect cd (ms_mz_array s) (ms_intensity_array s) cfg) as [[d|]|];
      cbn [mbind py_bind]; [|apply IH | reflexivity].
    destruct (validate cd d cfg) as [[[|] v]|]; cbn [mbind py_bind];
      [apply IH | apply IH | reflexivity].
Qed.

Lemma sweep_counts (ms1_spectra : list ms1_spectrum) (cfg : compound_config) :
  forall acc n all n',
    sweep cd ms1_spectra cfg acc n = Ret (all, n') ->
    exists l,
      all = acc ++ l /\
      (n + length l <= n')%nat /\ (n' <= n + length ms1_spectra)%nat /\
      sublist (map vd_scan l) (map ms_scan ms1_spectra).
Proof.
  induction ms1_spectra as [|s rest IH]; intros acc n all n' H; cbn [sweep] in H.
  - injection H as <- <-. exists []. rewrite app_nil_r. cbn. repeat split; try lia.
    constructor.
  - apply bind_Ret in H. destruct H as [d [Hd H]].
    destruct d as [d|].
    + apply bind_Ret in H. destruct H as [[valid v] [Hv H]].
      destruct valid.
      * destruct (IH _ _ _ _ H) as [l [-> [H1 [H2 H3]]]].
        eexists. split; [rewrite <- app_assoc; reflexivity|].
        cbn [length map app]. repeat split; try lia.
        apply sublist_skip. exact H3.
      * destruct (IH _ _ _ _ H) as [l [-> [H1 [H2 H3]]]].
        exists l. cbn [length map]. repeat split; try lia.
        apply sublist_cons. exact H3.
    + destruct (IH _ _ _ _ H) as [l [-> [H1 [H2 H3]]]].
      exists l. cbn [length map]. repeat split; try lia.
      apply sublist_cons. exact H3.
Qed.

(** X19.  The counters of a sweep.  The accepted detections are at most as many
    as the raw detections, which are at most as many as the spectra; and
    the scan numbers of the accepted detections are a subsequence of the
    scan numbers of the spectra, so a spectrum gives at most one
    detection and the detections stay in scan order. *)
Theorem sweep_counters (ms1_spectra : list ms1_spectrum) (cfg : compound_config)
    (all_detections : list validated_detection) (raw : nat) :
  sweep cd ms1_spectra cfg [] 0%nat = Ret (all_detections, raw) ->
  (length all_detections <= raw)%nat /\
  (raw <= length ms1_spectra)%nat /\
  sublist (map vd_scan all_detections) (map ms_scan ms1_spectra).
Proof.
  intros H. destruct (sweep_counts _ _ _ _ _ _ H) as [l [-> [H1 [H2 H3]]]].
  cbn [app]. repeat split; [lia | lia | exact H3].
Qed.

End SweepProperties.

Section SampleProperties.

Variable py_int : string -> option Z.
Variable isdigit : string -> bool.
Variable find_peaks : list Q -> Q -> nat -> option Q -> list nat.

Lemma analyze_compound_Ret (self : ReferenceDataManager)
    (ms1_spectra : list ms1_spectrum) (cfg : compound_config) :
  wf_store self ->
  Forall (fun s => length (ms_mz_array s) = length (ms_intensity_array s)) ms1_spectra ->
  exists r, analyze_compound (CompoundDetector find_peaks self) ms1_spectra cfg = Ret r.
Proof.
  intros Hwf Hpar.
  destruct (accepted_of_total (CompoundDetector find_peaks self) cfg ms1_spectra)
    as [accepted Hacc].
  { apply List.Forall_forall. intros s Hs. rewrite List.Forall_forall in Hpar.
    destruct (detect_compound_in_spectrum_Ret find_peaks _ _ cfg (Hpar s Hs)) as [r Hr].
    exists r. split; [exact Hr|]. intros d _.
    apply validate_against_reference_total. exact Hwf. }
  destruct (sweep_accepted_of _ cfg ms1_spectra accepted Hacc [] 0%nat) as [n Hn].
  unfold analyze_compound. rewrite Hn. cbn [mbind py_bind app].
  unfold select_optimal. destruct accepted as [|x l]; [eauto|].
  destruct (max_key_spec vd_intensity (x :: l)) as [best [_ [_ [Hmax _]]]]; [discriminate|].
  rewrite Hmax. cbn [mbind py_bind]. eauto.
Qed.

Lemma analyze_compounds_keys (cd : compound_detector) (ms1_spectra : list ms1_spectrum)
    (configs : list (string * compound_config)) :
  (forall f c, In (f, c) configs -> exists r, analyze_compound cd ms1_spectra c = Ret r) ->
  forall results,
  exists res,
    analyze_compounds cd ms1_spectra configs results = Ret res /\
    forall f, is_Some (res !! f) <-> is_Some (results !! f) \/ In f (map fst configs).
Proof.
  induction configs as [|[f0 c0] configs IH]; intros Hall results;
    cbn [analyze_compounds map fst In].
  - exists results. split; [reflexivity|]. intros f. tauto.
  - destruct (Hall f0 c0 (or_introl eq_refl)) as [r Hr]. rewrite Hr. cbn [mbind py_bind].
    destruct (IH (fun f c H => Hall f c (or_intror H)) (<[f0 := r]> results))
      as [res [Hres Hkeys]].
    exists res. split; [exact Hres|]. intros f. rewrite Hkeys.
    rewrite lookup_insert. destruct (decide (f0 = f)) as [->|Hne].
    + split; [intros _; right; left; reflexivity | intros _; left; eauto].
    + split; [intros [H|H]; auto | intros [H|[H|H]]; auto; congruence].
Qed.

(** X20.  The entries of a sample's result.  When the spectra of the run are
    collected without an exception and the two arrays of every collected
    spectrum are parallel, the result of the sample has an entry, a
    detection record or [None], for every configured formula and for no
    other. *)
Theorem sample_result_keys (data : list formula_data) (run : list spectrum)
    (configs : list (string * compound_config)) (ms1_spectra : list ms1_spectrum) :
  collect_ms1 py_int isdigit run = Ret ms1_spectra ->
  Forall (fun s => length (ms_mz_array s) = length (ms_intensity_array s)) ms1_spectra ->
  forall formula,
    is_Some (analyze_sample_for_compounds py_int isdigit
               (CompoundDetector find_peaks (load_all_references data)) run configs
             !! formula) <->
    In formula (map fst configs).
Proof.
  intros Hc Hpar formula. unfold analyze_sample_for_compounds.
  rewrite Hc. cbn [mbind py_bind].
  destruct (analyze_compounds_keys (CompoundDetector find_peaks (load_all_references data))
              ms1_spectra configs) with (results := (∅ : gmap string (option compound_result)))
    as [res [Hres Hkeys]].
  { intros f c _. apply analyze_compound_Ret; [apply load_all_references_wf | exact Hpar]. }
  rewrite Hres. cbn [try_except]. rewrite Hkeys, lookup_empty.
  split; [intros [[x Hx]|H]; [discriminate | exact H] | auto].
Qed.

End SampleProperties.

Section VerdictOfCandidates.

Variable find_peaks : list Q -> Q -> nat -> option Q -> list nat.

Hypothesis find_peaks_height :
  forall x height distance prominence k v,
    In k (find_peaks x height distance prominence) -> x !! k = Some v -> height <= v.

Lemma detect_compound_in_spectrum_ppm (mz_array intensity_array : list Q)
    (cfg : compound_config) (d : detection) :
  detect_compound_in_spectrum find_peaks mz_array intensity_array cfg = Ret (Some d) ->
  det_mz_error_ppm d = ppm_error (det_mz d) (cfg_target_mz cfg).
Proof.
  unfold detect_compound_in_spectrum.
  destruct (negb _); [discriminate|]. intros H.
  apply bind_Ret in H. destruct H as [region_mz [_ H]].
  apply bind_Ret in H. destruct H as [region_intensity [_ H]].
  apply bind_Ret in H. destruct H as [k [_ H]].
  apply bind_Ret in H. destruct H as [v [_ H]].
  apply bind_Ret in H. destruct H as [m [_ H]].
  destruct (Qlt_bool v _); [discriminate|].
  destruct (if (3 <? _)%nat then _ else _) as [v' m'].
  injection H as <-. reflexivity.
Qed.

(** X21.  The verdict on a candidate of the sweep.  For a compound configured by
    the loader whose formula does not contain [C24H52PSe], or whose name
    contains [TOP], and a peak finder that honours its [height] argument,
    a candidate of the sweep-time locator passes the intensity test of the
    validator: the verdict is the mass-accuracy flag, and the validator
    computes the ppm error the locator recorded. *)
Theorem sweep_candidate_verdict (data : list formula_data) (formula : string)
    (cfg : compound_config) (mz_array intensity_array : list Q) (d : detection) :
  In (formula, cfg) (compounds_config (load_all_references data)) ->
  contains "C24H52PSe" formula = false \/ contains "TOP" (cfg_compound_name cfg) = true ->
  detect_compound_in_spectrum find_peaks mz_array intensity_array cfg = Ret (Some d) ->
  exists v,
    validate_against_reference (load_all_references data) d cfg =
      Ret (mass_accuracy_ok v, Some v) /\
    is_valid v = mass_accuracy_ok v /\
    mass_error_ppm v = det_mz_error_ppm d.
Proof.
  intros Hin Hclass Hd.
  destruct (load_all_references_in_step data) as [Hnd Hsync].
  pose proof (In_dict_get _ _ _ Hnd Hin) as Hget. rewrite Hsync in Hget.
  destruct (reference_data (load_all_references data) !! formula) as [r|] eqn:Er;
    [|discriminate].
  cbn in Hget. injection Hget as <-.
  assert (Hr : get_reference (load_all_references data)
                 (cfg_formula (config_of formula r)) = Some r) by exact Er.
  destruct (validate_against_reference_outcome _ d _ r Hr (load_all_references_wf data _ _ Er))
    as [top [k [tm [_ [_ [_ H]]]]]].
  cbv zeta in H.
  assert (Hthr : Qle_bool (min_intensity_threshold (config_of formula r)) (det_intensity d)
                 = true).
  { eapply (detect_compound_in_spectrum_threshold find_peaks find_peaks_height);
      [reflexivity | exact Hclass | exact Hd]. }
  rewrite Hthr in H. cbn [andb] in H.
  match type of H with _ = Ret (_, Some ?x) => exists x end.
  split; [exact H|]. cbn [is_valid mass_accuracy_ok mass_error_ppm].
  split; [reflexivity|].
  symmetry. eapply detect_compound_in_spectrum_ppm. exact Hd.
Qed.

End VerdictOfCandidates.

(** ** The results table and the summary *)

Section TableProperties.

(** X22.  The sample type.  A sample whose name contains [PbSe10] also contains
    [PbSe1] and is typed [PbSe1]: the type [PbSe10] is given to the names
    that contain neither [PbSe1] nor [PbSe7], and to no name that contains
    [PbSe10]. *)
Theorem sample_type_PbSe10 (sample_name : string) :
  (contains "PbSe10" sample_name = true -> sample_type sample_name = "PbSe1"%string) /\
  (sample_type sample_name = "PbSe10"%string <->
   contains "PbSe1" sample_name = false /\ contains "PbSe7" sample_name = false) /\
  (sample_type sample_name = "PbSe10"%string -> contains "PbSe10" sample_name = false).
Proof.
  assert (H10 : contains "PbSe10" sample_name = true -> contains "PbSe1" sample_name = true).
  { apply contains_trans. reflexivity. }
  unfold sample_type. split; [|split].
  - intros H. rewrite (H10 H). reflexivity.
  - destruct (contains "PbSe1" sample_name), (contains "PbSe7" sample_name);
      split; try discriminate; try (intros [? ?]; discriminate); auto.
  - destruct (contains "PbSe10" sample_name); [|reflexivity].
    rewrite (H10 eq_refl). discriminate.
Qed.

Lemma split_priority_fold (p : string * compound_config -> bool)
    (configs a b : list (string * compound_config)) :
  fold_left
    (fun lists item => if p item then (lists.1 ++ [item], lists.2)
                       else (lists.1, lists.2 ++ [item]))
    configs (a, b) =
  (a ++ List.filter p configs, b ++ List.filter (fun item => negb (p item)) configs).
Proof.
  revert a b. induction configs as [|x configs IH]; intros a b; cbn [fold_left List.filter].
  - rewrite !app_nil_r. reflexivity.
  - destruct (p x); cbn [negb fst snd]; rewrite IH, <- app_assoc; reflexivity.
Qed.

(** X23.  The priority compounds.  The loop of [analyze_all_samples] keeps the
    order of the compounds and puts each one in exactly one of the two
    lists; a compound is a priority compound exactly when its name
    contains [TOP] or [Oleic], the tests on [TOPO] and [TOPSe] adding
    nothing. *)
Theorem split_priority_filter (configs : list (string * compound_config)) :
  let priority := fun item : string * compound_config =>
    contains "TOP" (cfg_compound_name item.2) || contains "Oleic" (cfg_compound_name item.2) in
  split_priority configs =
  (List.filter priority configs, List.filter (fun item => negb (priority item)) configs).
Proof.
  intros priority. unfold split_priority.
  rewrite (split_priority_fold (fun item => is_priority (cfg_compound_name item.2))).
  assert (E : forall item, is_priority (cfg_compound_name item.2) = priority item).
  { intros item. unfold is_priority, priority. cbn [existsb].
    set (name := cfg_compound_name item.2).
    pose proof (contains_trans "TOP" "TOPO" name eq_refl) as H1.
    pose proof (contains_trans "TOP" "TOPSe" name eq_refl) as H2.
    destruct (contains "TOP" name); [reflexivity|].
    destruct (contains "TOPO" name); [discriminate (H1 eq_refl)|].
    destruct (contains "TOPSe" name); [discriminate (H2 eq_refl)|].
    destruct (contains "Oleic" name); reflexivity. }
  cbn [app]. f_equal; apply List.filter_ext; intros item; rewrite E; reflexivity.
Qed.

(** X24.  The plots counted for a compound.  [_generate_summary_report] counts
    the plots whose name contains the formula.  So when a formula [f] is
    a substring of a formula [f'] (as [C24H52P] is of [C24H52PSe]), every
    plot of [f'] is also counted for [f]. *)
Theorem plotted_count_substring (f f' : string) :
  contains f f' = true ->
  (forall sample_name, contains f (plot_name sample_name f') = true) /\
  (forall successful_plots,
     (plotted_count f' successful_plots <= plotted_count f successful_plots)%nat).
Proof.
  intros Hf. split.
  - intros sample_name. apply (contains_trans f f'); [exact Hf|].
    apply contains_substring. exists (sample_name ++ "_")%string, EmptyString.
    unfold plot_name. rewrite string_app_assoc, append_nil_r. reflexivity.
  - intros plots. unfold plotted_count.
    induction plots as [|p plots IH]; cbn [List.filter]; [lia|].
    destruct (contains f' p) eqn:E.
    + rewrite (contains_trans f f' p Hf E). cbn [length]. lia.
    + destruct (contains f p); cbn [length]; lia.
Qed.



Section RowsOfSamples.

Variable py_int : string -> option Z.
Variable isdigit : string -> bool.
Variable find_peaks : list Q -> Q -> nat -> option Q -> list nat.
Variable reference_manager : ReferenceDataManager.




End RowsOfSamples.

End TableProperties.

(** ** The plot window *)

Section PlotWindow.




End PlotWindow.

(** ** The further properties on the sample data *)

Section FurtherOnSampleData.

Import Examples MoreExamples.

Lemma instance_find_peaks_height_lookup (x : list Q) (height : Q) (distance : nat)
    (prominence : option Q) (k : nat) (v : Q) :
  In k (Instances.find_peaks x height distance prominence) ->
  x !! k = Some v -> height <= v.
Proof.
  intros Hk Hv. pose proof (instance_find_peaks_height x height distance prominence) as H.
  rewrite List.Forall_forall in H. specialize (H k Hk).
  unfold Instances.value in H. rewrite Hv in H. exact H.
Qed.

Lemma parse_xy_string_pairs_witness :
  parse_xy_string xy_lines = ([1; 4], [2; 5]).
Proof.
  apply (proj1 (parse_xy_string_pairs xy_lines)). reflexivity.
Defined.

Lemma get_reference_origin_witness :
  exists fd, In fd reference_file /\ fd_mf fd = Some "C18H35O2"%string /\
             ref_exact_mass oleic_reference = default 0 (fd_em fd).
Proof.
  destruct (get_reference_origin reference_file "C18H35O2" oleic_reference)
    as [_ [_ [_ [fd [Hin [Hmf [_ [Hmass _]]]]]]]].
  - vm_compute. reflexivity.
  - exists fd. auto.
Defined.

Lemma compound_config_of_reference_witness :
  get_compound_config (load_all_references reference_file) "C18H35O2" = Some oleic.
Proof.
  apply (proj1 (compound_config_of_reference reference_file "C18H35O2")).
  exists oleic_reference. split; [vm_compute; reflexivity | reflexivity].
Defined.

Lemma configured_compound_is_validated_witness :
  exists v, validate_against_reference (load_all_references reference_file)
              at_threshold oleic = Ret (is_valid v, Some v).
Proof.
  destruct (configured_compound_is_validated reference_file "C18H35O2" oleic at_threshold)
    as [_ [r [v [_ [_ Hv]]]]].
  - left. reflexivity.
  - exists v. exact Hv.
Defined.

Lemma later_entry_replaces_witness :
  get_reference (load_all_references ([oleic_entry] ++ [selenide_entry])) "C18H35O2" =
  get_reference (load_all_references [oleic_entry]) "C18H35O2".
Proof.
  apply (proj1 (proj2 (later_entry_replaces [oleic_entry] selenide_entry))).
  discriminate.
Defined.

Lemma extract_scan_number_raises_witness :
  extract_scan_number Instances.ascii_int Instances.ascii_isdigit
    (IdStr "controllerType=0 controllerNumber=1 scan=17") = Ret 17%Z.
Proof.
  apply (proj2 (proj2 (extract_scan_number_raises Instances.ascii_int
                         Instances.ascii_isdigit
                         (IdStr "controllerType=0 controllerNumber=1 scan=17")))
           "controllerType=0 controllerNumber=1 scan=17"%string).
  - reflexivity.
  - reflexivity.
Defined.

Lemma collect_ms1_entries_witness :
  Forall (fun e => (0 < ms_scan e)%Z) collected /\ (length collected <= length run)%nat.
Proof.
  apply (collect_ms1_entries Instances.ascii_int Instances.ascii_isdigit run collected).
  vm_compute. reflexivity.
Defined.

Lemma extract_single_spectrum_first_witness :
  extract_single_spectrum Instances.ascii_int Instances.ascii_isdigit run 2 =
    Some ([283.10; 283.2637; 283.40], [40; 1800; 30]).
Proof.
  apply (extract_single_spectrum_first Instances.ascii_int Instances.ascii_isdigit run 2).
  exists [scan (IdStr "controllerType=0 controllerNumber=1 scan=1")
               [283.10; 283.2637; 283.40] [40; 1200; 30]],
         (scan (IdStr "controllerType=0 controllerNumber=1 scan=2")
               [283.10; 283.2637; 283.40] [40; 1800; 30]),
         [scan (IdStr "controllerType=0 controllerNumber=1 scan=3")
               [283.10; 283.2637; 283.40] [40; 1800; 30];
          scan (IdStr "controllerType=0 controllerNumber=1 scan=4")
               [283.10; 283.2637; 283.40] [40; 500; 30]].
  split; [reflexivity|]. split; [|repeat split].
  constructor; [|constructor]. exists 1%Z. split; [reflexivity | discriminate].
Defined.

Lemma extract_single_spectrum_of_collected_witness :
  extract_single_spectrum Instances.ascii_int Instances.ascii_isdigit run 3 =
    Some ([283.10; 283.2637; 283.40], [40; 1800; 30]).
Proof.
  apply (extract_single_spectrum_of_collected Instances.ascii_int Instances.ascii_isdigit
           run [1; 2; 3; 4]%Z collected
           (ms1 3 [283.10; 283.2637; 283.40] [40; 1800; 30])).
  - repeat constructor.
  - repeat (constructor;
            [cbn; intros H; decompose [or] H; try discriminate; assumption|]).
    constructor.
  - vm_compute. reflexivity.
  - right. right. left. reflexivity.
Defined.

Lemma scan_number_extractors_agree_witness :
  extract_scan_number Instances.ascii_int Instances.ascii_isdigit
    (IdStr "controllerType=0 controllerNumber=1 scan=17") =
  Ret (default 0%Z (extractor_scan_number Instances.ascii_int
                      (IdStr "controllerType=0 controllerNumber=1 scan=17"))).
Proof.
  apply (proj1 (scan_number_extractors_agree Instances.ascii_int Instances.ascii_isdigit
                  (IdStr "controllerType=0 controllerNumber=1 scan=17"))).
  reflexivity.
Defined.

Lemma extract_spectrum_at_scan_first_witness :
  extract_spectrum_at_scan Instances.ascii_int run 9 = None.
Proof.
  apply (proj2 (extract_spectrum_at_scan_first Instances.ascii_int run 9)).
  unfold run.
  repeat (apply List.Forall_cons; [right; vm_compute; discriminate|]).
  apply List.Forall_nil.
Defined.

Lemma detect_candidate_is_sample_witness :
  exists d,
    detect_compound_in_spectrum Instances.find_peaks scenario_mz scenario_intensity oleic
      = Ret (Some d) /\
    det_region_peaks d = 2%nat.
Proof.
  destruct (detect_compound_in_spectrum Instances.find_peaks scenario_mz
              scenario_intensity oleic) as [[d|]|] eqn:E.
  - exists d. split; [reflexivity|].
    destruct (detect_candidate_is_sample Instances.find_peaks _ _ _ _ E)
      as [_ [_ [_ [Hpeaks _]]]].
    rewrite Hpeaks. reflexivity.
  - vm_compute in E. discriminate E.
  - vm_compute in E. discriminate E.
Defined.

Lemma find_true_peak_maximum_is_sample_witness :
  exists k, scenario_mz !! k = Some 283.27 /\ scenario_intensity !! k = Some 1200.
Proof.
  destruct (find_true_peak_maximum_is_sample Instances.find_peaks scenario_mz
              scenario_intensity 283.2637 0.1
              {| peak_mz := 283.27; peak_intensity := 1200; corrected := false |})
    as [[k [H1 [H2 _]]] _].
  - vm_compute. reflexivity.
  - exists k. split; assumption.
Defined.



Lemma validation_outcome_bookkeeping_witness :
  exists v,
    validate_against_reference (load_all_references reference_file) at_threshold oleic
      = Ret (is_valid v, Some v) /\
    match_count v = (if main_peak_match v then 1 else 0)%nat.
Proof.
  destruct (validation_outcome_bookkeeping reference_file at_threshold oleic oleic_reference)
    as [v [H1 [_ [H2 _]]]].
  - vm_compute. reflexivity.
  - exists v. auto.
Defined.


Lemma sweep_counters_witness :
  exists all raw,
    sweep detector collected oleic [] 0%nat = Ret (all, raw) /\
    (length all <= raw)%nat /\ (raw <= 4)%nat.
Proof.
  destruct (sweep detector collected oleic [] 0%nat) as [[all raw]|] eqn:E.
  - exists all, raw. split; [reflexivity|].
    destruct (sweep_counters detector collected oleic all raw E) as [H1 [H2 _]].
    split; [exact H1 | exact H2].
  - vm_compute in E. discriminate E.
Defined.

Lemma sample_result_keys_witness :
  is_Some (analyze_sample_for_compounds Instances.ascii_int Instances.ascii_isdigit
             detector run [("C18H35O2"%string, oleic)] !! "C18H35O2"%string).
Proof.
  apply (sample_result_keys Instances.ascii_int Instances.ascii_isdigit
           Instances.find_peaks reference_file run [("C18H35O2"%string, oleic)] collected).
  - vm_compute. reflexivity.
  - repeat constructor.
  - left. reflexivity.
Defined.

Lemma sweep_candidate_verdict_witness :
  exists d v,
    detect_compound_in_spectrum Instances.find_peaks scenario_mz scenario_intensity oleic
      = Ret (Some d) /\
    validate_against_reference (load_all_references reference_file) d oleic
      = Ret (mass_accuracy_ok v, Some v).
Proof.
  destruct (detect_compound_in_spectrum Instances.find_peaks scenario_mz
              scenario_intensity oleic) as [[d|]|] eqn:E.
  - destruct (sweep_candidate_verdict Instances.find_peaks
                instance_find_peaks_height_lookup reference_file "C18H35O2" oleic
                scenario_mz scenario_intensity d) as [v [Hv _]].
    + left. reflexivity.
    + left. reflexivity.
    + exact E.
    + exists d, v. split; [reflexivity | exact Hv].
  - vm_compute in E. discriminate E.
  - vm_compute in E. discriminate E.
Defined.

Lemma sample_type_PbSe10_witness :
  sample_type "PbSe10_Pos_1" = "PbSe1"%string.
Proof.
  apply (proj1 (sample_type_PbSe10 "PbSe10_Pos_1")). reflexivity.
Defined.

Lemma plotted_count_substring_witness :
  (plotted_count "C24H52PSe" plots <= plotted_count "C24H52P" plots)%nat.
Proof.
  apply (proj2 (plotted_count_substring "C24H52P" "C24H52PSe" eq_refl)).
Defined.



End FurtherOnSampleData.
